(** * Amazon reviews scraper: the review extractor and the domain resolver

    A shallow embedding of [src/parsers/utils_domain.py] and
    [src/parsers/review_extractor.py], with the properties of the
    specification stated and proved over it.

    Conventions of the embedding.
    - Python [str] is embedded as [string], the UTF-8 bytes of the text.
      The character classes Python consults ([str.lower], [str.strip],
      the regular expression class [\d]) are embedded on their ASCII range;
      bytes above 127 are left as they are.
    - Python [int] is embedded as [Z]; [int(...)] is the literal grammar of
      decimal integers on text, with no bound on the number of digits.
    - Python [float] values ([random.uniform], [time.sleep] arguments) are
      embedded as [Q].
    - A raised exception is the [Raise] case of [result].
    - The libraries the extractor calls ([requests], [random], [hash],
      [datetime], the markup parser behind [BeautifulSoup]) are parameters:
      they are the fields of [Runtime], one value of which is one
      interpreter process. The parsed document itself is a concrete tree. *)

From Stdlib Require Import ZArith QArith Ascii String DecimalString List Lia.
From stdpp Require Import base option list strings gmap sorting.

Local Open Scope Z_scope.
Set Warnings "-register-all".

(** ** Text *)

Module Text.

Definition code (a : ascii) : N := N_of_ascii a.

(** [\d] and [str.isdigit] on ASCII. *)
Definition is_digit (a : ascii) : bool :=
  ((48 <=? code a) && (code a <=? 57))%N.

Definition digit_value (a : ascii) : Z := Z.of_N (code a) - 48.

(** [str.isspace] on ASCII: tab, line feed, vertical tab, form feed,
    carriage return, the four separators 28..31 and the blank. *)
Definition is_space (a : ascii) : bool :=
  (((9 <=? code a) && (code a <=? 13))
   || ((28 <=? code a) && (code a <=? 32)))%N.

Definition is_upper (a : ascii) : bool :=
  ((65 <=? code a) && (code a <=? 90))%N.

Definition is_alnum (a : ascii) : bool :=
  is_digit a || is_upper a || ((97 <=? code a) && (code a <=? 122))%N.

Definition lower_char (a : ascii) : ascii :=
  if is_upper a then ascii_of_N (code a + 32) else a.

(** [s.lower()] *)
Fixpoint lower (s : string) : string :=
  match s with
  | EmptyString => EmptyString
  | String a s' => String (lower_char a) (lower s')
  end.

Fixpoint lstrip (s : string) : string :=
  match s with
  | EmptyString => EmptyString
  | String a s' => if is_space a then lstrip s' else s
  end.

Definition rstrip (s : string) : string := String.rev (lstrip (String.rev s)).

(** [s.strip()] *)
Definition strip (s : string) : string := rstrip (lstrip s).

(** [c in s] for a one-character [c]. *)
Fixpoint char_in (c : ascii) (s : string) : bool :=
  match s with
  | EmptyString => false
  | String a s' => if Ascii.eqb a c then true else char_in c s'
  end.

(** [sep.join(parts)] *)
Fixpoint join (sep : string) (parts : list string) : string :=
  match parts with
  | [] => ""
  | [p] => p
  | p :: rest => p +:+ sep +:+ join sep rest
  end.

(** [str(n)] for an [int]. *)
Definition str_of_Z (n : Z) : string :=
  DecimalString.NilZero.string_of_int (Z.to_int n).

End Text.

(** ** The domain resolver ([utils_domain.py]) *)

Record DomainConfig := {
  domain_map : gmap string string;
  default_code : string
}.

(** The set literal of [get_domain]. *)
Definition known_suffixes : list string :=
  ["com"; "de"; "fr"; "it"; "es"; "nl"; "co.uk"; "com.au"; "ca"; "co.jp";
   "com.mx"; "com.tr"; "ae"; "sg"; "sa"].

(** The code [get_domain] works on after its first two statements. *)
Definition normalized_code (self : DomainConfig) (code : string) : string :=
  let code := if bool_decide (code = "") then default_code self else code in
  Text.strip (Text.lower code).

Definition get_domain (self : DomainConfig) (code : string) : string :=
  let code := normalized_code self code in
  if Text.char_in "." code || bool_decide (code ∈ known_suffixes)
  then code
  else default (default_code self) (domain_map self !! code).

(** ** Python values held by the filter set *)

(** The values [main.py] puts in [filters]: [None], a boolean, or what the
    JSON input gave for [filterByStar] and [filterByKeyword] (an integer or
    a text). *)
Inductive pyval :=
| PNone
| PBool (b : bool)
| PInt (n : Z)
| PStr (s : string).

(** Truth value of a Python object. *)
Definition truthy (v : pyval) : bool :=
  match v with
  | PNone => false
  | PBool b => b
  | PInt n => negb (n =? 0)
  | PStr s => negb (bool_decide (s = ""))
  end.

(** [str(v)] *)
Definition py_str (v : pyval) : string :=
  match v with
  | PNone => "None"
  | PBool true => "True"
  | PBool false => "False"
  | PInt n => Text.str_of_Z n
  | PStr s => s
  end.

Definition Filters := gmap string pyval.

(** [filters.get(key)] taken as a condition: absent keys are [None]. *)
Definition filter_set (filters : Filters) (key : string) : bool :=
  match filters !! key with
  | Some v => truthy v
  | None => false
  end.

(** ** [urllib.parse.urlencode] *)

Module Url.

Definition hex_digit (n : N) : ascii :=
  if (n <? 10)%N then ascii_of_N (48 + n) else ascii_of_N (55 + n).

(** [%XX], upper-case hexadecimal. *)
Definition percent (a : ascii) : string :=
  String "%" (String (hex_digit (Text.code a / 16))
               (String (hex_digit (Text.code a mod 16)) "")).

(** The characters [quote] never escapes. *)
Definition unreserved (a : ascii) : bool :=
  Text.is_alnum a
  || Ascii.eqb a "_" || Ascii.eqb a "." || Ascii.eqb a "-" || Ascii.eqb a "~".

(** [quote_plus(s)]: blanks become [+], every byte outside the
    unreserved set is percent-escaped. *)
Fixpoint quote_plus (s : string) : string :=
  match s with
  | EmptyString => EmptyString
  | String a s' =>
      if Ascii.eqb a " " then String "+" (quote_plus s')
      else if unreserved a then String a (quote_plus s')
      else percent a +:+ quote_plus s'
  end.

(** [urlencode(params)] for a dict in insertion order: every key and
    every value goes through [quote_plus(str(...))], pairs are joined
    with [&]. *)
Definition urlencode (params : list (string * pyval)) : string :=
  Text.join "&"
    (map (fun kv => quote_plus kv.1 +:+ "=" +:+ quote_plus (py_str kv.2)) params).

End Url.

(** ** The URL builder *)

(** The value [_build_reviews_url] gives to [sortBy]. *)
Definition sort_value (sort_by : string) : string :=
  if bool_decide (sort_by = "recent") then "recent" else "helpful".

(** The [params] dict of [_build_reviews_url], in insertion order. *)
Definition review_params (page : Z) (sort_by : string) (filters : Filters)
  : list (string * pyval) :=
  [("pageNumber", PInt page);
   ("sortBy", PStr (sort_value sort_by))]
  ++ (if filter_set filters "filterByStar"
      then [("filterByStar", default PNone (filters !! "filterByStar"))] else [])
  ++ (if filter_set filters "filterByKeyword"
      then [("filterByKeyword", default PNone (filters !! "filterByKeyword"))] else [])
  ++ (if filter_set filters "verifiedOnly"
      then [("reviewerType", PStr "avp_only_reviews")] else []).

Definition _build_reviews_url (domain_cfg : DomainConfig)
    (asin domain_code : string) (page : Z) (sort_by : string)
    (filters : Filters) : string :=
  let domain := get_domain domain_cfg domain_code in
  let base := "https://www.amazon." +:+ domain +:+ "/product-reviews/" +:+ asin in
  let q := Url.urlencode (review_params page sort_by filters) in
  base +:+ "/ref=cm_cr_arp_d_paging_btm_next_" +:+ Text.str_of_Z page +:+ "?" +:+ q.

(** ** Exceptions *)

Inductive exn :=
| ValueError
| RequestException (what : string).

(** [str(e)] *)
Definition exn_text (e : exn) : string :=
  match e with
  | ValueError => "invalid literal for int() with base 10"
  | RequestException what => what
  end.

Inductive result (A : Type) :=
| Ok (a : A)
| Raise (e : exn).
Arguments Ok {A} a.
Arguments Raise {A} e.

Definition rbind {A B} (r : result A) (k : A -> result B) : result B :=
  match r with
  | Ok a => k a
  | Raise e => Raise e
  end.

Notation "x <- r ;; k" := (rbind r (fun x => k))
  (at level 100, r at next level, right associativity).

(** A loop body run over a list, stopping at the first exception. *)
Fixpoint rmap {A B} (f : A -> result B) (l : list A) : result (list B) :=
  match l with
  | [] => Ok []
  | a :: l' => b <- f a ;; bs <- rmap f l' ;; Ok (b :: bs)
  end.

(** ** [int(text)] and the three regular expressions *)

Module Re.

(** The longest prefix of digits, and what follows it. *)
Fixpoint span_digits (s : string) : string * string :=
  match s with
  | EmptyString => ("", "")
  | String a s' =>
      if Text.is_digit a
      then (String a (span_digits s').1, (span_digits s').2)
      else ("", s)
  end.

(** [re.sub] of every character outside [\d] by the empty text. *)
Fixpoint sub_non_digits (s : string) : string :=
  match s with
  | EmptyString => ""
  | String a s' =>
      if Text.is_digit a then String a (sub_non_digits s') else sub_non_digits s'
  end.

(** Group 1 of [re.search] for the pattern [(\d+)], [None] when there
    is no match. *)
Fixpoint search_digits (s : string) : option string :=
  match s with
  | EmptyString => None
  | String a s' =>
      if Text.is_digit a then Some (span_digits s).1 else search_digits s'
  end.

(** Group 1 of [re.search] for the pattern [(\d+)%]: at each position
    from the left, a run of digits that is followed by [%]. *)
Fixpoint search_percent (s : string) : option string :=
  match s with
  | EmptyString => None
  | String a s' =>
      if Text.is_digit a
      then match (span_digits s).2 with
           | String "%" _ => Some (span_digits s).1
           | _ => search_percent s'
           end
      else search_percent s'
  end.

End Re.

(** The digits of an integer literal; [_] may stand between two digits. *)
Fixpoint int_digits (after_digit : bool) (acc : Z) (s : string) : option Z :=
  match s with
  | EmptyString => if after_digit then Some acc else None
  | String a s' =>
      if Text.is_digit a then int_digits true (10 * acc + Text.digit_value a) s'
      else if Ascii.eqb a "_"
           then (if after_digit then int_digits false acc s' else None)
           else None
  end.

(** [int(s)] in base ten: surrounding blanks, an optional sign, digits. *)
Definition py_int (s : string) : result Z :=
  let s := Text.strip s in
  let '(sign, body) :=
    match s with
    | String "-" r => (-1, r)
    | String "+" r => (1, r)
    | _ => (1, s)
    end in
  match int_digits false 0 body with
  | Some n => Ok (sign * n)
  | None => Raise ValueError
  end.

(** Vocabulary for the statements about numeric text: a text made of
    digits only, a text without any digit, a text whose first character is a
    digit, and the number a run of digits denotes in base ten. *)
Fixpoint all_digits (s : string) : bool :=
  match s with
  | EmptyString => true
  | String a s' => Text.is_digit a && all_digits s'
  end.

Fixpoint no_digit (s : string) : bool :=
  match s with
  | EmptyString => true
  | String a s' => negb (Text.is_digit a) && no_digit s'
  end.

Definition starts_with_digit (s : string) : bool :=
  match s with
  | EmptyString => false
  | String a _ => Text.is_digit a
  end.

Fixpoint digits_value (acc : Z) (s : string) : Z :=
  match s with
  | EmptyString => acc
  | String a s' => digits_value (10 * acc + Text.digit_value a) s'
  end.

(** ** The parsed document ([bs4]) *)

Module Soup.

Inductive node :=
| NavigableString (text : string)
| Tag (name : string) (attrs : gmap string string) (contents : list node).

Record element := { el_name : string; el_attrs : gmap string string }.

(** An element of a document, as the extractor holds it: the element,
    what it contains, and the elements around it, nearest first. *)
Record tag := {
  parents : list element;
  this : element;
  contents : list node
}.

(** The parsed document is the list of its top-level nodes. *)
Definition document := list node.

(** [tag.get(key)] *)
Definition get (t : tag) (key : string) : option string :=
  el_attrs (this t) !! key.

(** Blank-separated words of an attribute value (the [class] list). *)
Fixpoint words_go (cur : string) (s : string) : list string :=
  match s with
  | EmptyString => if bool_decide (cur = "") then [] else [cur]
  | String a s' =>
      if Text.is_space a
      then (if bool_decide (cur = "") then [] else [cur]) ++ words_go "" s'
      else words_go (cur +:+ String a "") s'
  end.
Definition words (s : string) : list string := words_go "" s.

Definition classes (e : element) : list string :=
  match el_attrs e !! "class" with
  | Some v => words v
  | None => []
  end.

(** One compound selector: [name#id.class[attr='value']], every part
    optional. *)
Record compound := {
  sel_name : option string;
  sel_id : option string;
  sel_classes : list string;
  sel_attrs : list (string * string)
}.

(** A selector: alternatives separated by commas, each a chain of
    compounds separated by blanks (the descendant combinator), outermost
    first. *)
Definition selector := list (list compound).

Definition matches (c : compound) (e : element) : bool :=
  match sel_name c with
  | Some n => bool_decide (el_name e = n)
  | None => true
  end
  && match sel_id c with
     | Some i => bool_decide (el_attrs e !! "id" = Some i)
     | None => true
     end
  && forallb (fun k => bool_decide (k ∈ classes e)) (sel_classes c)
  && forallb (fun kv => bool_decide (el_attrs e !! kv.1 = Some kv.2)) (sel_attrs c).

(** The compounds left of the last one, innermost first, against the
    elements around the candidate, nearest first. *)
Fixpoint match_up (chain : list compound) (around : list element) : bool :=
  match chain with
  | [] => true
  | c :: chain' =>
      match around with
      | [] => false
      | e :: around' =>
          if matches c e then match_up chain' around' else match_up chain around'
      end
  end.

Definition matches_chain (chain : list compound) (t : tag) : bool :=
  match rev chain with
  | [] => false
  | c :: before => matches c (this t) && match_up before (parents t)
  end.

Definition matches_selector (sel : selector) (t : tag) : bool :=
  existsb (fun chain => matches_chain chain t) sel.

(** The elements of a subtree in document order, each with the elements
    around it. *)
Fixpoint descendants (around : list element) (n : node) : list tag :=
  match n with
  | NavigableString _ => []
  | Tag name attrs kids =>
      let e := {| el_name := name; el_attrs := attrs |} in
      {| parents := around; this := e; contents := kids |}
        :: flat_map (descendants (e :: around)) kids
  end.

(** [soup.select(sel)] and [soup.select_one(sel)] on the document. *)
Definition select (sel : selector) (doc : document) : list tag :=
  filter (fun t => matches_selector sel t) (flat_map (descendants []) doc).
Definition select_one (sel : selector) (doc : document) : option tag :=
  head (select sel doc).

(** [tag.select(sel)] and [tag.select_one(sel)]: candidates are the
    elements inside the tag; the elements around it still count for the
    left part of a chain. *)
Definition tag_select (sel : selector) (t : tag) : list tag :=
  filter (fun t' => matches_selector sel t')
         (flat_map (descendants (this t :: parents t)) (contents t)).
Definition tag_select_one (sel : selector) (t : tag) : option tag :=
  head (tag_select sel t).

Fixpoint strings (n : node) : list string :=
  match n with
  | NavigableString s => [s]
  | Tag _ _ kids => flat_map strings kids
  end.

(** [tag.get_text(separator, strip=...)] *)
Definition get_text (separator : string) (strip : bool) (t : tag) : string :=
  let all := flat_map strings (contents t) in
  Text.join separator
    (if strip
     then filter (fun s => negb (bool_decide (s = ""))) (map Text.strip all)
     else all).

End Soup.

(** ** The markup extractor *)

Import Soup.

Definition by_hook (name hook : string) : compound :=
  {| sel_name := Some name; sel_id := None; sel_classes := [];
     sel_attrs := [("data-hook", hook)] |}.
Definition by_name (name : string) : compound :=
  {| sel_name := Some name; sel_id := None; sel_classes := []; sel_attrs := [] |}.
Definition by_id (id : string) : compound :=
  {| sel_name := None; sel_id := Some id; sel_classes := []; sel_attrs := [] |}.
Definition by_class (name : option string) (class : string) : compound :=
  {| sel_name := name; sel_id := None; sel_classes := [class]; sel_attrs := [] |}.

(** The selectors of [review_extractor.py], in the order they appear. *)
Definition sel_product_title : selector :=
  [[by_id "cm_cr-product_info"; by_class None "product-title"];
   [by_id "cm_cr-product_info"; by_name "h1"]].
Definition sel_product_link : selector :=
  [[by_id "cm_cr-product_info"; by_hook "a" "product-link"]].
Definition sel_rating_out_of : selector := [[by_hook "span" "rating-out-of-text"]].
Definition sel_total_count : selector :=
  [[by_hook "div" "total-review-count"; by_name "span"]].
Definition sel_histogram (star : string) : selector :=
  [[{| sel_name := Some "table"; sel_id := Some "histogramTable";
       sel_classes := []; sel_attrs := [] |};
    by_class (Some "tr") (star +:+ "-star");
    by_class None "a-text-right"]].
Definition sel_review : selector := [[by_hook "div" "review"]].
Definition sel_review_title : selector := [[by_hook "a" "review-title"; by_name "span"]].
Definition sel_review_rating : selector :=
  [[by_hook "i" "review-star-rating"; by_name "span"];
   [by_hook "i" "cmps-review-star-rating"; by_name "span"]].
Definition sel_profile_name : selector := [[by_class (Some "span") "a-profile-name"]].
Definition sel_review_date : selector := [[by_hook "span" "review-date"]].
Definition sel_review_body : selector := [[by_hook "span" "review-body"; by_name "span"]].
Definition sel_helpful : selector := [[by_hook "span" "helpful-vote-statement"]].
Definition sel_avp_badge : selector := [[by_hook "span" "avp-badge"]].
Definition sel_vine_badge : selector := [[by_hook "span" "vine-review-badge"]].
Definition sel_image_tile : selector := [[by_class (Some "img") "review-image-tile"]].
Definition sel_video_source : selector :=
  [[by_hook "div" "video-cmp"; by_name "video"; by_name "source"]].
Definition sel_format_strip : selector := [[by_hook "a" "format-strip"]].

(** [x or None] for a list. *)
Definition or_None {A} (l : list A) : option (list A) :=
  match l with
  | [] => None
  | _ => Some l
  end.

(** The dict [_parse_product_info] returns. *)
Record ProductInfo := { pi_title : option string }.

Definition _parse_product_info (soup : document) : ProductInfo :=
  let title := get_text "" true <$> select_one sel_product_title soup in
  let title :=
    match title with
    | Some (String _ _) => title
    | _ =>
        match select_one sel_product_link soup with
        | Some link => Some (get_text "" true link)
        | None => title
        end
    end in
  {| pi_title := title |}.

(** The dict [_parse_summary_info] returns; [si_summary] maps a star label
    to its percentage, in insertion order. *)
Record SummaryInfo := {
  si_productRating : option string;
  si_countRatings : option Z;
  si_summary : option (list (string * Z))
}.

(** One turn of the distribution loop: the entry added for [star], if any. *)
Definition histogram_entry (soup : document) (star : string)
  : result (list (string * Z)) :=
  match select_one (sel_histogram star) soup with
  | Some el =>
      match Re.search_percent (get_text "" false el) with
      | Some digits => n <- py_int digits ;; Ok [(star +:+ "Star", n)]
      | None => Ok []
      end
  | None => Ok []
  end.

Definition star_levels : list string := ["five"; "four"; "three"; "two"; "one"].

Definition _parse_summary_info (soup : document) : result SummaryInfo :=
  let product_rating := get_text "" true <$> select_one sel_rating_out_of soup in
  let count_ratings :=
    match select_one sel_total_count soup with
    | Some cnt =>
        match py_int (Re.sub_non_digits (get_text "" false cnt)) with
        | Ok n => Some n
        | Raise _ => None
        end
    | None => None
    end in
  entries <- rmap (histogram_entry soup) star_levels ;;
  Ok {| si_productRating := product_rating;
        si_countRatings := count_ratings;
        si_summary := or_None (concat entries) |}.

(** The dict yielded for one review entry. *)
Record Review := {
  rv_id : option string;
  rv_title : option string;
  rv_rating : option string;
  rv_user : option string;
  rv_date : option string;
  rv_text : option string;
  rv_helpful : option Z;
  rv_verified : bool;
  rv_vine : bool;
  rv_images : option (list string);
  rv_videos : option (list string);
  rv_variations : option (list string);
  rv_variationId : option string
}.

(** [rev.select_one(sel)] followed by the conditional [get_text]. *)
Definition text_of (sel : selector) (separator : string) (rev : tag) : option string :=
  get_text separator true <$> tag_select_one sel rev.

(** The [src] values that are present and not empty. *)
Definition sources (tags : list tag) : list string :=
  omap (fun t => match get t "src" with
                 | Some (String a s) => Some (String a s)
                 | _ => None
                 end) tags.

(** The helpful count of one entry. *)
Definition parse_helpful (rev : tag) : result (option Z) :=
  match tag_select_one sel_helpful rev with
  | Some helpful_el =>
      match Re.search_digits (get_text "" false helpful_el) with
      | Some digits => n <- py_int digits ;; Ok (Some n)
      | None => Ok (Some 0)
      end
  | None => Ok None
  end.

(** The body of the loop of [_parse_reviews_from_soup]. *)
Definition parse_review (rev : tag) : result Review :=
  let rid := get rev "id" in
  let title := text_of sel_review_title "" rev in
  let rating := text_of sel_review_rating "" rev in
  let user := text_of sel_profile_name "" rev in
  let date_txt := text_of sel_review_date "" rev in
  let text := text_of sel_review_body " " rev in
  helpful <- parse_helpful rev ;;
  let verified := bool_decide (is_Some (tag_select_one sel_avp_badge rev)) in
  let vine := bool_decide (is_Some (tag_select_one sel_vine_badge rev)) in
  let images := sources (tag_select sel_image_tile rev) in
  let videos := sources (tag_select sel_video_source rev) in
  let variations :=
    match tag_select_one sel_format_strip rev with
    | Some var_el => [get_text " " true var_el]
    | None => []
    end in
  Ok {| rv_id := rid; rv_title := title; rv_rating := rating; rv_user := user;
        rv_date := date_txt; rv_text := text; rv_helpful := helpful;
        rv_verified := verified; rv_vine := vine;
        rv_images := or_None images; rv_videos := or_None videos;
        rv_variations := or_None variations; rv_variationId := None |}.

Definition _parse_reviews_from_soup (soup : document) : result (list Review) :=
  rmap parse_review (select sel_review soup).

(** What a missing element or attribute leaves in the entry: the fields
    read from an element or an attribute are null, the two badge flags are
    false. *)
Definition absent_fields (rev : tag) (r : Review) : Prop :=
  (get rev "id" = None -> rv_id r = None)
  /\ (tag_select_one sel_review_title rev = None -> rv_title r = None)
  /\ (tag_select_one sel_review_rating rev = None -> rv_rating r = None)
  /\ (tag_select_one sel_profile_name rev = None -> rv_user r = None)
  /\ (tag_select_one sel_review_date rev = None -> rv_date r = None)
  /\ (tag_select_one sel_review_body rev = None -> rv_text r = None)
  /\ (tag_select_one sel_helpful rev = None -> rv_helpful r = None)
  /\ (Forall (fun img => get img "src" = None) (tag_select sel_image_tile rev) ->
      rv_images r = None)
  /\ (Forall (fun v => get v "src" = None) (tag_select sel_video_source rev) ->
      rv_videos r = None)
  /\ (tag_select_one sel_format_strip rev = None -> rv_variations r = None)
  /\ rv_variationId r = None
  /\ (tag_select_one sel_avp_badge rev = None -> rv_verified r = false)
  /\ (tag_select_one sel_vine_badge rev = None -> rv_vine r = false).

(** The reading under which a missing badge would leave the flag null. *)
Definition flag_null_when_absent (rev : tag) (record_verified : option bool) : Prop :=
  tag_select_one sel_avp_badge rev = None -> record_verified = None.

(** ** Records *)

Record ReviewRecord := {
  statusCode : Z;
  statusMessage : string;
  asin : string;
  productTitle : option string;
  currentPage : Z;
  sortStrategy : string;
  countReviews : Z;
  domainCode : string;
  filters : Filters;
  countRatings : option Z;
  productRating : option string;
  reviewSummary : option (list (string * Z));
  reviewId : option string;
  text : option string;
  date : option string;
  rating : option string;
  title : option string;
  userName : option string;
  numberOfHelpful : option Z;
  variationId : option string;
  imageUrlList : option (list string);
  videoUrlList : option (list string);
  variationList : option (list string);
  verified : option bool;
  vine : option bool
}.

(** ** The process the extractor runs in *)

(** The [random] module: a generator state and the draws the extractor
    makes. [randbelow n] is the index [random.choice] draws for a sequence
    of length [n]. *)
Record Random := {
  rng : Type;
  seed : Z -> rng;
  randint : Z -> Z -> rng -> Z * rng;
  randbelow : nat -> rng -> nat * rng;
  uniform : Q -> Q -> rng -> Q * rng
}.

Record request := {
  rq_url : string;
  rq_timeout : Z;
  rq_headers : list (string * string);
  rq_proxies : option (list (string * string))
}.

(** What [requests.get] gives: a response, or an exception. *)
Inductive response :=
| Response (status_code : Z) (body : string)
| Fault (e : exn).

(** One interpreter process: its random module, the hash of a pair of
    texts under the key the process drew at start-up, what the network
    answers to the n-th request of the run, the text [strftime] gives at the
    n-th reading of the clock, the markup parser, and the text of a float
    rounded to one decimal. *)
Record Runtime := {
  random : Random;
  hash_pair : string -> string -> Z;
  network : nat -> request -> response;
  utcnow_text : nat -> string;
  BeautifulSoup : string -> document;
  round1_text : Q -> string
}.

Inductive log_event :=
| LogDebug (msg : string)
| LogWarning (msg : string)
| LogError (msg : string).

(** What a run has done so far, and the state of the generator. *)
Record world (R : Random) := {
  rng_state : rng R;
  requests : list request;
  sleeps : list Q;
  clock_reads : nat;
  logged : list log_event
}.
Arguments rng_state {R} w.
Arguments requests {R} w.
Arguments sleeps {R} w.
Arguments clock_reads {R} w.
Arguments logged {R} w.

Section Effects.
Context {R : Random}.

Definition set_rng (g : rng R) (w : world R) : world R :=
  {| rng_state := g; requests := requests w; sleeps := sleeps w;
     clock_reads := clock_reads w; logged := logged w |}.

Definition sent (rq : request) (w : world R) : world R :=
  {| rng_state := rng_state w; requests := requests w ++ [rq];
     sleeps := sleeps w; clock_reads := clock_reads w; logged := logged w |}.

(** [time.sleep(seconds)] *)
Definition sleep (seconds : Q) (w : world R) : world R :=
  {| rng_state := rng_state w; requests := requests w;
     sleeps := sleeps w ++ [seconds]; clock_reads := clock_reads w;
     logged := logged w |}.

Definition clock_read (w : world R) : world R :=
  {| rng_state := rng_state w; requests := requests w; sleeps := sleeps w;
     clock_reads := S (clock_reads w); logged := logged w |}.

Definition log (e : log_event) (w : world R) : world R :=
  {| rng_state := rng_state w; requests := requests w; sleeps := sleeps w;
     clock_reads := clock_reads w; logged := logged w ++ [e] |}.

(** [random.choice] on a sequence that is not empty. *)
Definition choice {A} (first : A) (others : list A) (g : rng R) : A * rng R :=
  let '(i, g') := randbelow R (S (length others)) g in
  (nth i (first :: others) first, g').

End Effects.

(** [range(a, b)] *)
Definition range (a b : Z) : list Z :=
  map (fun i => a + Z.of_nat i) (seq 0 (Z.to_nat (b - a))).

Record ReviewExtractor := {
  domain_cfg : DomainConfig;
  timeout : Z;
  max_retries : Z;
  proxy : option string;
  user_agent : string
}.

(** ** The extractor ([review_extractor.py]) *)

Section Extractor.
Variable rt : Runtime.
Variable self : ReviewExtractor.

Local Abbreviation W := (world (random rt)).

(** *** Networking *)

Definition get_request (url : string) : request :=
  {| rq_url := url;
     rq_timeout := timeout self;
     rq_headers := [("User-Agent", user_agent self);
                    ("Accept-Language", "en-US,en;q=0.9")];
     rq_proxies :=
       match proxy self with
       | Some (String a p) =>
           Some [("http", String a p); ("https", String a p)]
       | _ => None
       end |}.

(** The pause after a failed attempt: [0.5 * attempt] seconds. *)
Definition backoff (attempt : Z) : Q := (1 # 2) * inject_Z attempt.

(** The retry loop of [_http_get] over the attempt numbers still to run. *)
Fixpoint http_attempts (url : string) (attempts : list Z)
    (last_exc : option exn) (w : W) : option string * W :=
  match attempts with
  | [] =>
      (None,
       match last_exc with
       | Some e =>
           log (LogError ("Failed to GET " +:+ url +:+ " after "
                       +:+ Text.str_of_Z (max_retries self) +:+ " attempts: "
                       +:+ exn_text e)) w
       | None => w
       end)
  | attempt :: rest =>
      let rq := get_request url in
      let resp := network rt (length (requests w)) rq in
      let w := sent rq w in
      match resp with
      | Response status body =>
          if status =? 200 then (Some body, w)
          else
            let w := log (LogWarning ("HTTP " +:+ Text.str_of_Z status +:+ " for "
                                   +:+ url +:+ " (attempt "
                                   +:+ Text.str_of_Z attempt +:+ ")")) w in
            http_attempts url rest last_exc (sleep (backoff attempt) w)
      | Fault e =>
          let w := log (LogWarning ("Request error (attempt "
                                 +:+ Text.str_of_Z attempt +:+ "): "
                                 +:+ exn_text e)) w in
          http_attempts url rest (Some e) (sleep (backoff attempt) w)
      end
  end.

Definition _http_get (url : string) (w : W) : option string * W :=
  http_attempts url (range 1 (max_retries self + 1)) None w.

(** *** Live pages *)

(** The [ReviewRecord(...)] call of [fetch_reviews]. *)
Definition assemble (asin domain_code sort_by : string) (filters : Filters)
    (product_info : option ProductInfo) (summary_info : option SummaryInfo)
    (page count : Z) (r : Review) : ReviewRecord :=
  {| statusCode := 200;
     statusMessage := "FOUND";
     asin := asin;
     productTitle := product_info ≫= pi_title;
     currentPage := page;
     sortStrategy := sort_by;
     countReviews := count;
     domainCode := domain_code;
     filters := filters;
     countRatings := summary_info ≫= si_countRatings;
     productRating := summary_info ≫= si_productRating;
     reviewSummary := summary_info ≫= si_summary;
     reviewId := rv_id r;
     text := rv_text r;
     date := rv_date r;
     rating := rv_rating r;
     title := rv_title r;
     userName := rv_user r;
     numberOfHelpful := rv_helpful r;
     variationId := rv_variationId r;
     imageUrlList := rv_images r;
     videoUrlList := rv_videos r;
     variationList := rv_variations r;
     verified := Some (rv_verified r);
     vine := Some (rv_vine r) |}.

(** The page loop of [fetch_reviews] over the page numbers still to run. *)
Fixpoint fetch_pages (asin domain_code sort_by : string) (filters : Filters)
    (pages : list Z) (product_info : option ProductInfo)
    (summary_info : option SummaryInfo) (records : list ReviewRecord) (w : W)
  : result (list ReviewRecord) * W :=
  match pages with
  | [] => (Ok records, w)
  | page :: rest =>
      let url := _build_reviews_url (domain_cfg self) asin domain_code page sort_by filters in
      let w := log (LogDebug ("Fetching page " +:+ Text.str_of_Z page +:+ ": " +:+ url)) w in
      let '(html, w) := _http_get url w in
      match html with
      | Some (String a h) =>
          let soup := BeautifulSoup rt (String a h) in
          let product_info :=
            match product_info with
            | None => Some (_parse_product_info soup)
            | Some _ => product_info
            end in
          match (match summary_info with
                 | None => si <- _parse_summary_info soup ;; Ok (Some si)
                 | Some _ => Ok summary_info
                 end) with
          | Raise e => (Raise e, w)
          | Ok summary_info =>
              match _parse_reviews_from_soup soup with
              | Raise e => (Raise e, w)
              | Ok page_reviews =>
                  let count := Z.of_nat (length page_reviews) in
                  let w := log (LogDebug ("Parsed " +:+ Text.str_of_Z count
                                       +:+ " reviews on page "
                                       +:+ Text.str_of_Z page)) w in
                  let records :=
                    records ++ map (assemble asin domain_code sort_by filters
                                      product_info summary_info page count)
                                   page_reviews in
                  let '(pause, g) := uniform (random rt) (8 # 10) (18 # 10) (rng_state w) in
                  let w := sleep pause (set_rng g w) in
                  fetch_pages asin domain_code sort_by filters rest
                              product_info summary_info records w
              end
          end
      | _ =>
          (Ok records,
           log (LogWarning ("Empty HTML for " +:+ asin +:+ " page " +:+ Text.str_of_Z page)) w)
      end
  end.

(** *** Mock data *)

Definition mock_summary (five four three two one : Z) : list (string * Z) :=
  [("fiveStar", five); ("fourStar", four); ("threeStar", three);
   ("twoStar", two); ("oneStar", one)].

(** One turn of the inner loop of [_generate_mock]: the draws and the
    clock reading, in the order the statements and the keyword arguments
    are evaluated. *)
Definition mock_record (asin domain_code sort_by : string) (filters : Filters)
    (product_title product_rating : string) (summary : list (string * Z))
    (total page page_size : Z) (w : W) : ReviewRecord * W :=
  let '(n, g) := randint (random rt) (10 ^ 12) (10 ^ 13 - 1) (rng_state w) in
  let rid := "R" +:+ Text.str_of_Z n in
  let '(stars, g) := choice 5 [4; 3; 2; 1] g in
  let now := utcnow_text rt (clock_reads w) in
  let '(user, g) := choice "Alex" ["Jordan"; "Taylor"; "Sam"; "Casey"; "Riley"] g in
  let '(helpful, g) := randint (random rt) 0 25 g in
  let '(variation, g) := choice "Color: Black" ["Size: Large"; "Style: Single"] g in
  let '(is_verified, g) := choice true [false; true] g in
  ({| statusCode := 200;
      statusMessage := "FOUND";
      asin := asin;
      productTitle := Some product_title;
      currentPage := page;
      sortStrategy := sort_by;
      countReviews := page_size;
      domainCode := domain_code;
      filters := filters;
      countRatings := Some total;
      productRating := Some product_rating;
      reviewSummary := Some summary;
      reviewId := Some rid;
      text := Some ("This is a mock review text " +:+ rid +:+ " for ASIN "
                    +:+ asin +:+ ". Works well.");
      date := Some now;
      rating := Some (Text.str_of_Z stars +:+ ".0 out of 5 stars");
      title := Some ("Great product (" +:+ Text.str_of_Z stars +:+ "★)");
      userName := Some user;
      numberOfHelpful := Some helpful;
      variationId := Some asin;
      imageUrlList := None;
      videoUrlList := None;
      variationList := Some [variation];
      verified := Some is_verified;
      vine := Some false |},
   clock_read (set_rng g w)).

(** The inner loop, [turns] records still to make. *)
Fixpoint mock_page (make : W -> ReviewRecord * W) (turns : nat)
    (records : list ReviewRecord) (w : W) : list ReviewRecord * W :=
  match turns with
  | O => (records, w)
  | S turns' =>
      let '(rec, w) := make w in
      mock_page make turns' (records ++ [rec]) w
  end.

(** The outer loop over the page numbers still to run. *)
Fixpoint mock_pages (make : Z -> Z -> W -> ReviewRecord * W) (pages : list Z)
    (records : list ReviewRecord) (w : W) : list ReviewRecord * W :=
  match pages with
  | [] => (records, w)
  | page :: rest =>
      let '(page_size, g) := randint (random rt) 5 12 (rng_state w) in
      let '(records, w) :=
        mock_page (make page page_size) (Z.to_nat page_size) records (set_rng g w) in
      mock_pages make rest records w
  end.

Definition _generate_mock (asin domain_code : string) (max_pages : Z)
    (filters : Filters) (sort_by : string) (w : W) : list ReviewRecord * W :=
  let g := seed (random rt) (Z.land (hash_pair rt asin domain_code) 0xFFFFFFFF) in
  let '(n, g) := randint (random rt) 5 15 g in
  let total := n * max_pages in
  let product_title := "Mock Product for " +:+ asin in
  let '(x, g) := uniform (random rt) (38 # 10) (49 # 10) g in
  let product_rating := round1_text rt x +:+ " out of 5" in
  let '(five, g) := randint (random rt) 50 90 g in
  let '(four, g) := randint (random rt) 5 30 g in
  let '(three, g) := randint (random rt) 1 15 g in
  let '(two, g) := randint (random rt) 0 5 g in
  let '(one, g) := randint (random rt) 0 5 g in
  let summary := mock_summary five four three two one in
  mock_pages (mock_record asin domain_code sort_by filters
                          product_title product_rating summary total)
             (range 1 (max_pages + 1)) [] (set_rng g w).

(** *** Public API *)

Definition fetch_reviews (asin domain_code : string) (max_pages : Z)
    (filters : option Filters) (sort_by : string) (mock : bool) (w : W)
  : result (list ReviewRecord) * W :=
  let filters := default ∅ filters in
  if mock
  then let '(records, w) := _generate_mock asin domain_code max_pages filters sort_by w in
       (Ok records, w)
  else fetch_pages asin domain_code sort_by filters (range 1 (max_pages + 1))
                   None None [] w.

End Extractor.

(** ** Vocabulary for the statements about a fetch sequence *)

(** The records built from one page: its number, and the entries parsed
    from it. *)
Definition page_rows (asin domain_code sort_by : string) (filters : Filters)
    (product_info : option ProductInfo) (summary_info : option SummaryInfo)
    (pg : Z * list Review) : list ReviewRecord :=
  map (assemble asin domain_code sort_by filters product_info summary_info
                pg.1 (Z.of_nat (length pg.2))) pg.2.

(** The entries of a page are what the review pass returned on a document. *)
Definition parsed_page (rt : Runtime) (pg : Z * list Review) : Prop :=
  exists body, _parse_reviews_from_soup (BeautifulSoup rt body) = Ok pg.2.

(** The document of the first page of a fetch sequence started in [w], when
    that page could be fetched. *)
Definition first_page (rt : Runtime) (self : ReviewExtractor)
    (asin domain_code sort_by : string) (filters : Filters)
    (w : world (random rt)) : option document :=
  let url := _build_reviews_url (domain_cfg self) asin domain_code 1 sort_by filters in
  match (_http_get rt self url
           (log (LogDebug ("Fetching page " +:+ Text.str_of_Z 1 +:+ ": " +:+ url)) w)).1 with
  | Some (String a h) => Some (BeautifulSoup rt (String a h))
  | _ => None
  end.

(** The four page-level fields of a record. *)
Definition page_fields (r : ReviewRecord)
  : option string * option Z * option string * option (list (string * Z)) :=
  (productTitle r, countRatings r, productRating r, reviewSummary r).

(** The records of [records] that carry the page number of [r]. *)
Definition same_page (records : list ReviewRecord) (r : ReviewRecord) : list ReviewRecord :=
  filter (fun r' => currentPage r' = currentPage r) records.

(** A multi-valued field is null or a sequence that is not empty. *)
Definition null_or_nonempty {A} (field : option (list A)) : Prop :=
  match field with
  | Some [] => False
  | _ => True
  end.

(** A record with its [date] erased. *)
Definition without_date (r : ReviewRecord) : ReviewRecord :=
  {| statusCode := statusCode r; statusMessage := statusMessage r; asin := asin r;
     productTitle := productTitle r; currentPage := currentPage r;
     sortStrategy := sortStrategy r; countReviews := countReviews r;
     domainCode := domainCode r; filters := filters r;
     countRatings := countRatings r; productRating := productRating r;
     reviewSummary := reviewSummary r; reviewId := reviewId r; text := text r;
     date := None; rating := rating r; title := title r; userName := userName r;
     numberOfHelpful := numberOfHelpful r; variationId := variationId r;
     imageUrlList := imageUrlList r; videoUrlList := videoUrlList r;
     variationList := variationList r; verified := verified r; vine := vine r |}.

(** The process [rt] with another hash key and another clock. *)
Definition in_process (hash : string -> string -> Z) (clock : nat -> string)
    (rt : Runtime) : Runtime :=
  {| random := random rt;
     hash_pair := hash;
     network := network rt;
     utcnow_text := clock;
     BeautifulSoup := BeautifulSoup rt;
     round1_text := round1_text rt |}.

(** What holds of every mock record whatever the draws. *)
Definition mock_constants (asin : string) (r : ReviewRecord) : Prop :=
  vine r = Some false
  /\ variationId r = Some asin
  /\ exists variation, variationList r = Some [variation].

Definition multi_valued_ok (r : ReviewRecord) : Prop :=
  null_or_nonempty (imageUrlList r)
  /\ null_or_nonempty (videoUrlList r)
  /\ null_or_nonempty (variationList r).

(** ** A small process to run the extractor on

    A linear congruential generator stands for [random], a byte sum offset by
    the process key for [hash], and a parser that knows two pages for the
    markup parser. They are used to evaluate the extractor on concrete inputs;
    no statement below depends on them except the examples that name them. *)

Module Demo.

Definition step (g : Z) : Z := (g * 1103515245 + 12345) mod 2147483648.

Definition lcg : Random :=
  {| rng := Z;
     seed := fun z => z;
     randint := fun a b g => (a + step g mod (b - a + 1), step g);
     randbelow := fun n g => (Z.to_nat (step g mod Z.of_nat n), step g);
     uniform := fun a b g => (a, step g) |}.

Fixpoint byte_sum (s : string) : Z :=
  match s with
  | EmptyString => 0
  | String a s' => Z.of_N (Text.code a) + byte_sum s'
  end.

Definition el (name : string) (attrs : list (string * string)) (kids : list node) : node :=
  Tag name (list_to_map attrs) kids.

Definition hooked (name hook : string) (kids : list node) : node :=
  el name [("data-hook", hook)] kids.

(** A review entry with every element the extractor looks for. *)
Definition full_review (id helpful : string) : node :=
  el "div" [("data-hook", "review"); ("id", id)]
    [hooked "a" "review-title" [el "span" [] [NavigableString " Solid "]];
     hooked "i" "review-star-rating" [el "span" [] [NavigableString "4.0 out of 5 stars"]];
     el "span" [("class", "a-profile-name")] [NavigableString "Sam"];
     hooked "span" "review-date" [NavigableString "Reviewed on 1 May 2024"];
     hooked "span" "review-body"
       [el "span" [] [NavigableString "Works."; el "br" [] []; NavigableString " Fine. "]];
     hooked "span" "helpful-vote-statement" [NavigableString helpful];
     hooked "span" "avp-badge" [NavigableString "Verified Purchase"];
     el "img" [("class", "review-image-tile"); ("src", "https://img/1.jpg")] [];
     el "img" [("class", "review-image-tile")] [];
     hooked "a" "format-strip" [NavigableString "Color: Black"]].

(** A review entry with nothing inside. *)
Definition bare_review : node := el "div" [("data-hook", "review")] [].

Definition page_one : document :=
  [el "html" []
     [el "div" [("id", "cm_cr-product_info")]
        [el "h1" [] [NavigableString " Kettle "]];
      hooked "span" "rating-out-of-text" [NavigableString "4.5 out of 5"];
      hooked "div" "total-review-count" [el "span" [] [NavigableString "1,234 global ratings"]];
      el "table" [("id", "histogramTable")]
        [el "tr" [("class", "a-histogram-row five-star")]
           [el "td" [("class", "a-text-right")] [NavigableString "71%"]]];
      full_review "R1" "12 people found this helpful";
      full_review "R2" "One person found this helpful";
      bare_review]].

Definition page_two : document :=
  [el "html" []
     [el "div" [("id", "cm_cr-product_info")]
        [el "h1" [] [NavigableString "Another title"]];
      hooked "div" "total-review-count" [el "span" [] [NavigableString "abc"]];
      full_review "R3" "3 of 40 people found this helpful"]].

(** The review entries of the first page, by position. *)
Definition entry (n : nat) : tag :=
  nth n (select sel_review page_one)
      {| parents := []; this := {| el_name := ""; el_attrs := ∅ |}; contents := [] |}.

Definition parser (body : string) : document :=
  if bool_decide (body = "<page 1>") then page_one
  else if bool_decide (body = "<page 2>") then page_two
  else [].

(** A process with hash key [key] and network [net]. *)
Definition process (key : Z) (net : nat -> request -> response) : Runtime :=
  {| random := lcg;
     hash_pair := fun a b => key + 31 * byte_sum a + byte_sum b;
     network := net;
     utcnow_text := fun _ => "Reviewed on 03 November 2026";
     BeautifulSoup := parser;
     round1_text := fun _ => "4.2" |}.

(** A network that is down, and one that serves two pages after one
    refusal and one fault. *)
Definition net_down (n : nat) (rq : request) : response :=
  if Nat.even n then Response 503 "" else Fault (RequestException "timed out").

Definition net_two_pages (n : nat) (rq : request) : response :=
  match n with
  | 0%nat => Response 503 "busy"
  | 1%nat => Fault (RequestException "reset")
  | 2%nat => Response 200 "<page 1>"
  | 3%nat => Response 200 "<page 2>"
  | _ => Response 404 ""
  end.

Definition extractor : ReviewExtractor :=
  {| domain_cfg := {| domain_map := {["uk" := "co.uk"]}; default_code := "com" |};
     timeout := 20; max_retries := 3; proxy := None;
     user_agent := "Mozilla/5.0" |}.

Definition start : world lcg :=
  {| rng_state := (0 : rng lcg); requests := []; sleeps := [];
     clock_reads := 0%nat; logged := [] |}.

(** A live run over the two pages, and its records. *)
Definition records_of (run : result (list ReviewRecord) * world lcg) : list ReviewRecord :=
  match run.1 with
  | Ok records => records
  | Raise _ => []
  end.

Definition live_records : list ReviewRecord :=
  records_of (fetch_reviews (process 7 net_two_pages) extractor
                            "B000TEST1" "uk" 3 None "recent" false start).

(** The same mock call in two processes that differ in their hash key. *)
Definition mock_records (key : Z) : list ReviewRecord :=
  records_of (fetch_reviews (process key net_down) extractor
                            "B000TEST1" "com" 1 None "recent" true start).

End Demo.

(** ** Values of the settings and input files

    What [json.load] gives and what [dataclasses.asdict] builds: [None], a
    boolean, an integer, a text, a list or a dict. Numbers with a fraction
    are left out of the embedding. *)
Inductive jval :=
| JNone
| JBool (b : bool)
| JInt (n : Z)
| JStr (s : string)
| JList (items : list jval)
| JDict (items : gmap string jval).

(** [v is None] *)
Definition is_None (v : jval) : bool :=
  match v with
  | JNone => true
  | _ => false
  end.

(** ** [main.py]: merging defaults and overrides *)

(** [merge_settings]: a copy of [settings] in which every entry of
    [overrides] whose value is not [None] is written. *)
Definition merge_settings (settings overrides : option (gmap string jval))
  : gmap string jval :=
  map_fold (fun k v merged => if is_None v then merged else <[k := v]> merged)
           (default ∅ settings) (default ∅ overrides).

(** ** [ReviewExtractor.__init__] *)

Definition default_user_agent : string :=
  "Mozilla/5.0 (Windows NT 10.0; Win64; x64) AppleWebKit/537.36 "
  +:+ "(KHTML, like Gecko) Chrome/124.0.0.0 Safari/537.36".

Definition ReviewExtractor__init__ (domain_cfg : DomainConfig)
    (timeout max_retries : Z) (proxy user_agent : option string) : ReviewExtractor :=
  {| domain_cfg := domain_cfg;
     timeout := timeout;
     max_retries := max_retries;
     proxy := proxy;
     user_agent :=
       match user_agent with
       | Some (String a s) => String a s
       | _ => default_user_agent
       end |}.

(** ** The exporters ([records_to_dicts], [export_csv]) *)

Definition jval_of_pyval (v : pyval) : jval :=
  match v with
  | PNone => JNone
  | PBool b => JBool b
  | PInt n => JInt n
  | PStr s => JStr s
  end.

(** An optional field: [None] or the value. *)
Definition jopt {A} (f : A -> jval) (o : option A) : jval :=
  match o with
  | Some a => f a
  | None => JNone
  end.

(** A dict in insertion order. *)
Definition row := list (string * jval).

(** [dataclasses.asdict(r)]: the fields in declaration order, dicts and
    lists copied. *)
Definition asdict (r : ReviewRecord) : row :=
  [("statusCode", JInt (statusCode r));
   ("statusMessage", JStr (statusMessage r));
   ("asin", JStr (asin r));
   ("productTitle", jopt JStr (productTitle r));
   ("currentPage", JInt (currentPage r));
   ("sortStrategy", JStr (sortStrategy r));
   ("countReviews", JInt (countReviews r));
   ("domainCode", JStr (domainCode r));
   ("filters", JDict (jval_of_pyval <$> filters r));
   ("countRatings", jopt JInt (countRatings r));
   ("productRating", jopt JStr (productRating r));
   ("reviewSummary",
    jopt (fun summary =>
            JDict (list_to_map
                     (map (fun kv => (kv.1, JDict {["percentage" := JInt kv.2]}))
                          summary)))
         (reviewSummary r));
   ("reviewId", jopt JStr (reviewId r));
   ("text", jopt JStr (text r));
   ("date", jopt JStr (date r));
   ("rating", jopt JStr (rating r));
   ("title", jopt JStr (title r));
   ("userName", jopt JStr (userName r));
   ("numberOfHelpful", jopt JInt (numberOfHelpful r));
   ("variationId", jopt JStr (variationId r));
   ("imageUrlList", jopt (fun l => JList (map JStr l)) (imageUrlList r));
   ("videoUrlList", jopt (fun l => JList (map JStr l)) (videoUrlList r));
   ("variationList", jopt (fun l => JList (map JStr l)) (variationList r));
   ("verified", jopt JBool (verified r));
   ("vine", jopt JBool (vine r))].

Definition records_to_dicts (records : list ReviewRecord) : list row :=
  map asdict records.

(** [r.get(key)] *)
Fixpoint dict_get (key : string) (r : row) : option jval :=
  match r with
  | [] => None
  | (k, v) :: r' => if bool_decide (k = key) then Some v else dict_get key r'
  end.

(** The set built by the loop of [export_csv]: the keys of every row. *)
Definition union_of_keys (rows : list row) : gset string :=
  foldl (fun fieldnames r => fieldnames ∪ list_to_set (map fst r)) ∅ rows.

(** [sorted(fieldnames)]: texts in ascending order. *)
Definition sorted (fieldnames : gset string) : list string :=
  merge_sort String.le (elements fieldnames).

(** [csv.DictWriter.writerow]: the cells handed to the writer, one per field
    name, the empty text where the row has no such key; a key outside the
    field names raises. *)
Definition writerow (fieldnames : list string) (r : row) : result (list jval) :=
  if bool_decide (Forall (fun k => k ∈ fieldnames) (map fst r))
  then Ok (map (fun key => default (JStr "") (dict_get key r)) fieldnames)
  else Raise ValueError.

(** What [export_csv] writes, as the lines of cells it hands to the [csv]
    writer (the empty list is the empty file), and the message it logs. *)
Definition export_csv_rows (rows : list row) (path : string)
  : result (list (list jval) * string) :=
  match rows with
  | [] => Ok ([], "No records; wrote empty CSV: " +:+ path)
  | _ =>
      let field_list := sorted (union_of_keys rows) in
      lines <- rmap (writerow field_list) rows ;;
      Ok (map JStr field_list :: lines, "Wrote CSV: " +:+ path)
  end.

Definition export_csv (records : list ReviewRecord) (path : string)
  : result (list (list jval) * string) :=
  export_csv_rows (records_to_dicts records) path.

(** ** Vocabulary for the further statements *)

Fixpoint count_char (c : ascii) (s : string) : nat :=
  match s with
  | EmptyString => 0%nat
  | String a s' => ((if Ascii.eqb a c then 1 else 0) + count_char c s')%nat
  end.

(** The contract of [random.randint] and of the index [random.choice]
    draws. *)
Definition randint_in_range (R : Random) : Prop :=
  forall a b g, a <= b -> a <= (randint R a b g).1 <= b.

Definition randbelow_in_range (R : Random) : Prop :=
  forall n g, (0 < n)%nat -> ((randbelow R n g).1 < n)%nat.

(** ** Further inputs for the examples *)

Module Cases.

(** The filter set [main.py] builds for a job that configures no filter,
    and the same with [withMediaOnly] set. *)
Definition no_filters : Filters :=
  {[ "filterByStar" := PNone; "filterByKeyword" := PNone;
     "verifiedOnly" := PBool false; "withMediaOnly" := PBool false ]}.

Definition media_only : Filters := <["withMediaOnly" := PBool true]> no_filters.

Definition keyword_filters : Filters :=
  <["filterByKeyword" := PStr "a&b=c d"]> (<["verifiedOnly" := PBool true]> no_filters).

(** Defaults and a job that overrides one of them and leaves the other at
    [None]. *)
Definition defaults : gmap string jval :=
  {[ "maxPages" := JInt 2; "sortBy" := JStr "recent" ]}.

Definition job : gmap string jval :=
  {[ "maxPages" := JInt 5; "sortBy" := JNone ]}.

(** A network that only ever answers with status 503. *)
Definition net_busy (n : nat) (rq : request) : response := Response 503 "busy".

End Cases.

(** ** Vocabulary for the statements about the log *)

Definition is_warning (e : log_event) : bool :=
  match e with
  | LogWarning _ => true
  | _ => false
  end.

(** The exception of the last attempt that ended in a fault, among the [n]
    requests numbered from [base]; [last] when none did. *)
Fixpoint last_fault (net : nat -> request -> response) (rq : request)
    (base n : nat) (last : option exn) : option exn :=
  match n with
  | O => last
  | S n' =>
      last_fault net rq (S base) n'
                 (match net base rq with
                  | Fault e => Some e
                  | Response _ _ => last
                  end)
  end.

(** ** Vocabulary for the statements about echoed fields *)

(** The fields every record of a call repeats from the call. *)
Definition echoes (call_asin call_domain call_sort : string) (call_filters : Filters)
    (r : ReviewRecord) : Prop :=
  statusCode r = 200
  /\ statusMessage r = "FOUND"
  /\ asin r = call_asin
  /\ domainCode r = call_domain
  /\ sortStrategy r = call_sort
  /\ filters r = call_filters.

(** ** Vocabulary for the statements about the rating summary *)

(** The entry of the distribution for one star level: the number before the
    first percent sign of the level's cell that follows digits, if the cell
    exists and holds one. *)
Definition star_entry (soup : document) (star : string) : option (string * Z) :=
  el ← select_one (sel_histogram star) soup;
  digits ← Re.search_percent (get_text "" false el);
  Some (star +:+ "Star", digits_value 0 digits).

(** The [src] attributes of the elements, those present. *)
Definition src_values (tags : list tag) : list string :=
  omap (fun t => get t "src") tags.

(** ** Vocabulary for the statements about null fields *)

(** A per-review field is null exactly when its element or attribute is
    missing. *)
Definition null_iff_absent (rev : tag) (r : Review) : Prop :=
  (rv_id r = None <-> get rev "id" = None)
  /\ (rv_title r = None <-> tag_select_one sel_review_title rev = None)
  /\ (rv_rating r = None <-> tag_select_one sel_review_rating rev = None)
  /\ (rv_user r = None <-> tag_select_one sel_profile_name rev = None)
  /\ (rv_date r = None <-> tag_select_one sel_review_date rev = None)
  /\ (rv_text r = None <-> tag_select_one sel_review_body rev = None)
  /\ (rv_helpful r = None <-> tag_select_one sel_helpful rev = None)
  /\ (rv_variations r = None <-> tag_select_one sel_format_strip rev = None).

(** A multi-valued field that is not null has exactly one element. *)
Definition one_element {A} (field : option (list A)) : Prop :=
  from_option (fun l => length l = 1%nat) True field.

(** ** Vocabulary for the statements about mock records *)

(** What one turn of the mock loop fixes in its record, given the
    product-level values drawn at the start of the call. *)
Definition mock_turn (call_asin call_domain call_sort : string) (call_filters : Filters)
    (product_rating : string) (summary : list (string * Z)) (total page size : Z)
    (r : ReviewRecord) : Prop :=
  echoes call_asin call_domain call_sort call_filters r
  /\ currentPage r = page
  /\ countReviews r = size
  /\ page_fields r
     = (Some ("Mock Product for " +:+ call_asin), Some total,
        Some product_rating, Some summary)
  /\ imageUrlList r = None
  /\ videoUrlList r = None.

(** The values the mock generator picks with [random.choice]. *)
Definition mock_choices (r : ReviewRecord) : Prop :=
  (exists stars,
      stars ∈ [5; 4; 3; 2; 1]
      /\ rating r = Some (Text.str_of_Z stars +:+ ".0 out of 5 stars")
      /\ title r = Some ("Great product (" +:+ Text.str_of_Z stars +:+ "★)"))
  /\ (exists user,
        user ∈ ["Alex"; "Jordan"; "Taylor"; "Sam"; "Casey"; "Riley"]
        /\ userName r = Some user)
  /\ (exists variation,
        variation ∈ ["Color: Black"; "Size: Large"; "Style: Single"]
        /\ variationList r = Some [variation])
  /\ is_Some (verified r)
  /\ (exists rid, reviewId r = Some ("R" +:+ rid)
                  /\ text r = Some ("This is a mock review text R" +:+ rid
                                     +:+ " for ASIN " +:+ asin r +:+ ". Works well.")).

(** The ranges of the numbers the mock generator draws, for a call with
    [max_pages] pages. *)
Definition mock_ranges (max_pages : Z) (r : ReviewRecord) : Prop :=
  5 <= countReviews r <= 12
  /\ 1 <= currentPage r <= max_pages
  /\ from_option (fun helpful => 0 <= helpful <= 25) False (numberOfHelpful r)
  /\ (exists n, 10 ^ 12 <= n <= 10 ^ 13 - 1
                /\ reviewId r = Some ("R" +:+ Text.str_of_Z n))
  /\ (exists n, 5 <= n <= 15 /\ countRatings r = Some (n * max_pages))
  /\ (exists five four three two one,
        reviewSummary r = Some (mock_summary five four three two one)
        /\ 50 <= five <= 90 /\ 5 <= four <= 30 /\ 1 <= three <= 15
        /\ 0 <= two <= 5 /\ 0 <= one <= 5).

(** ** Vocabulary for the statements about the exported table *)

(** The field names of [ReviewRecord], in ascending order. *)
Definition sorted_field_names : list string :=
  ["asin"; "countRatings"; "countReviews"; "currentPage"; "date"; "domainCode";
   "filters"; "imageUrlList"; "numberOfHelpful"; "productRating"; "productTitle";
   "rating"; "reviewId"; "reviewSummary"; "sortStrategy"; "statusCode";
   "statusMessage"; "text"; "title"; "userName"; "variationId"; "variationList";
   "verified"; "videoUrlList"; "vine"].

(** The same names in declaration order. *)
Definition field_names : list string :=
  ["statusCode"; "statusMessage"; "asin"; "productTitle"; "currentPage";
   "sortStrategy"; "countReviews"; "domainCode"; "filters"; "countRatings";
   "productRating"; "reviewSummary"; "reviewId"; "text"; "date"; "rating"; "title";
   "userName"; "numberOfHelpful"; "variationId"; "imageUrlList"; "videoUrlList";
   "variationList"; "verified"; "vine"].

(** The line [export_csv] writes for a row under a header. *)
Definition csv_line (header : list string) (r : row) : list jval :=
  map (fun key => default (JStr "") (dict_get key r)) header.

(** * Properties *)

(** ** Text *)

Lemma append_cons (x : ascii) (a b : string) :
  String x a +:+ b = String x (a +:+ b).
Proof. reflexivity. Qed.

Lemma append_nil_l (b : string) : "" +:+ b = b.
Proof. reflexivity. Qed.

Lemma append_assoc (a b c : string) : (a +:+ b) +:+ c = a +:+ b +:+ c.
Proof.
  induction a as [|x a IH]; [reflexivity|].
  by rewrite !append_cons, IH.
Qed.

Lemma append_nil_r (a : string) : a +:+ "" = a.
Proof.
  induction a as [|x a IH]; [reflexivity|].
  by rewrite append_cons, IH.
Qed.

Lemma char_in_app (c : ascii) (a b : string) :
  Text.char_in c (a +:+ b) = Text.char_in c a || Text.char_in c b.
Proof.
  induction a as [|x a IH]; [reflexivity|].
  rewrite append_cons. simpl.
  destruct (Ascii.eqb x c); [reflexivity | exact IH].
Qed.

Lemma char_in_rev_app (c : ascii) (a b : string) :
  Text.char_in c (String.rev_app a b) = Text.char_in c a || Text.char_in c b.
Proof.
  revert b. induction a as [|x a IH]; intros b; simpl; [reflexivity|].
  rewrite IH. simpl. destruct (Ascii.eqb x c), (Text.char_in c a); reflexivity.
Qed.

Lemma char_in_rev (c : ascii) (a : string) :
  Text.char_in c (String.rev a) = Text.char_in c a.
Proof. unfold String.rev. rewrite char_in_rev_app. simpl. apply orb_false_r. Qed.

Lemma lower_char_dot (a : ascii) :
  Ascii.eqb (Text.lower_char a) "." = Ascii.eqb a ".".
Proof. destruct a as [[] [] [] [] [] [] [] []]; reflexivity. Qed.

Lemma space_not_dot (a : ascii) :
  Text.is_space a = true -> Ascii.eqb a "." = false.
Proof. destruct a as [[] [] [] [] [] [] [] []]; vm_compute; congruence. Qed.

Lemma char_in_lower_dot (s : string) :
  Text.char_in "." (Text.lower s) = Text.char_in "." s.
Proof.
  induction s as [|a s IH]; simpl; [reflexivity|].
  by rewrite lower_char_dot, IH.
Qed.

Lemma char_in_lstrip_dot (s : string) :
  Text.char_in "." (Text.lstrip s) = Text.char_in "." s.
Proof.
  induction s as [|a s IH]; simpl; [reflexivity|].
  destruct (Text.is_space a) eqn:E; [|reflexivity].
  by rewrite (space_not_dot a E).
Qed.

Lemma char_in_strip_dot (s : string) :
  Text.char_in "." (Text.strip s) = Text.char_in "." s.
Proof.
  unfold Text.strip, Text.rstrip.
  by rewrite char_in_rev, char_in_lstrip_dot, char_in_rev, char_in_lstrip_dot.
Qed.

(** ** The domain resolver *)

Lemma known_suffix_normal (code : string) :
  code ∈ known_suffixes -> Text.strip (Text.lower code) = code /\ code <> "".
Proof.
  unfold known_suffixes. intros H.
  repeat (apply elem_of_cons in H as [->|H]; [split; [reflexivity | discriminate]|]).
  by apply elem_of_nil in H.
Qed.

Lemma dotted_not_empty (code : string) :
  Text.char_in "." code = true -> code <> "".
Proof. by destruct code. Qed.



(** ** The URL builder *)

Lemma quote_plus_app (a b : string) :
  Url.quote_plus (a +:+ b) = Url.quote_plus a +:+ Url.quote_plus b.
Proof.
  induction a as [|x a IH]; [reflexivity|].
  rewrite append_cons. simpl.
  destruct (Ascii.eqb x " "); [by rewrite IH|].
  destruct (Url.unreserved x); [by rewrite IH|].
  by rewrite IH, append_assoc.
Qed.

Lemma quote_plus_uint (d : Decimal.uint) :
  Url.quote_plus (NilEmpty.string_of_uint d) = NilEmpty.string_of_uint d.
Proof. induction d; simpl; by rewrite ?IHd. Qed.

(** The decimal text of an integer goes through [quote_plus] unchanged. *)
Lemma quote_plus_str_of_Z (n : Z) :
  Url.quote_plus (Text.str_of_Z n) = Text.str_of_Z n.
Proof.
  unfold Text.str_of_Z, NilZero.string_of_int, NilZero.string_of_uint.
  destruct (Z.to_int n) as [d|d]; destruct d; simpl;
    by rewrite ?quote_plus_uint.
Qed.

Lemma join_cons2 (sep a b : string) (rest : list string) :
  Text.join sep (a :: b :: rest) = a +:+ sep +:+ Text.join sep (b :: rest).
Proof. reflexivity. Qed.

(** Everything [urlencode] writes after the first pair starts with [&]. *)
Lemma join_tail (sep a : string) (rest : list string) :
  exists tail, Text.join sep (a :: rest) = a +:+ tail
               /\ (tail = "" \/ exists t, tail = sep +:+ t).
Proof.
  destruct rest as [|b rest].
  - exists "". simpl. rewrite append_nil_r. auto.
  - exists (sep +:+ Text.join sep (b :: rest)). rewrite join_cons2. eauto.
Qed.



(** ** The page fetcher *)

Lemma length_range (a b : Z) : length (range a b) = Z.to_nat (b - a).
Proof. unfold range. by rewrite length_map, length_seq. Qed.

Lemma range_nonpositive (n : Z) : n <= 0 -> range 1 (n + 1) = [].
Proof.
  intros H. unfold range. replace (Z.to_nat (n + 1 - 1)) with 0%nat by lia.
  reflexivity.
Qed.

Section Fetcher.
Variable rt : Runtime.
Variable self : ReviewExtractor.

Local Abbreviation W := (world (random rt)).

(** A run of the retry loop that returns a body got it from a response
    with status 200, at one of the attempts; before it, one request and
    one pause per failed attempt. *)
Lemma http_attempts_some (url : string) (attempts : list Z) :
  forall (last : option exn) (w : W) (body : string),
    (http_attempts rt self url attempts last w).1 = Some body ->
    exists k,
      (k < length attempts)%nat
      /\ network rt (length (requests w) + k) (get_request self url)
         = Response 200 body
      /\ requests (http_attempts rt self url attempts last w).2
         = requests w ++ replicate (S k) (get_request self url)
      /\ sleeps (http_attempts rt self url attempts last w).2
         = sleeps w ++ map backoff (take k attempts).
Proof.
  induction attempts as [|attempt rest IH]; intros last w body; simpl.
  - discriminate.
  - destruct (network rt (length (requests w)) (get_request self url))
      as [status b|e] eqn:Hnet.
    + destruct (status =? 200) eqn:Hst.
      * simpl. intros [= ->]. apply Z.eqb_eq in Hst as ->.
        exists 0%nat. rewrite Nat.add_0_r, Hnet. simpl.
        rewrite app_nil_r. split_and!; try done; lia.
      * intros H. destruct (IH _ _ _ H) as (k & Hk & Hok & Hreq & Hsl).
        exists (S k). simpl in Hok, Hreq, Hsl. rewrite length_app in Hok.
        simpl in Hok. replace (length (requests w) + S k)%nat
          with (length (requests w) + 1 + k)%nat by lia.
        rewrite Hok, Hreq, Hsl. simpl.
        rewrite <- !app_assoc. split_and!; try done; lia.
    + intros H. destruct (IH _ _ _ H) as (k & Hk & Hok & Hreq & Hsl).
      exists (S k). simpl in Hok, Hreq, Hsl. rewrite length_app in Hok.
      simpl in Hok. replace (length (requests w) + S k)%nat
        with (length (requests w) + 1 + k)%nat by lia.
      rewrite Hok, Hreq, Hsl. simpl.
      rewrite <- !app_assoc. split_and!; try done; lia.
Qed.

(** When no attempt is answered with status 200, the loop runs every
    attempt, pauses after each, and returns nothing. *)
Lemma http_attempts_none (url : string) (attempts : list Z) :
  forall (last : option exn) (w : W),
    (forall k body, (k < length attempts)%nat ->
       network rt (length (requests w) + k) (get_request self url)
       <> Response 200 body) ->
    (http_attempts rt self url attempts last w).1 = None
    /\ requests (http_attempts rt self url attempts last w).2
       = requests w ++ replicate (length attempts) (get_request self url)
    /\ sleeps (http_attempts rt self url attempts last w).2
       = sleeps w ++ map backoff attempts.
Proof.
  induction attempts as [|attempt rest IH]; intros last w Hfail; simpl.
  - rewrite !app_nil_r. by destruct last.
  - assert (Hrest : forall (w' : W),
              requests w' = requests w ++ [get_request self url] ->
              forall k body, (k < length rest)%nat ->
                network rt (length (requests w') + k) (get_request self url)
                <> Response 200 body).
    { intros w' Hw' k body Hk. rewrite Hw', length_app. simpl.
      replace (length (requests w) + 1 + k)%nat
        with (length (requests w) + S k)%nat by lia.
      apply Hfail. simpl. lia. }
    destruct (network rt (length (requests w)) (get_request self url))
      as [status b|e] eqn:Hnet.
    + destruct (status =? 200) eqn:Hst.
      * exfalso. apply Z.eqb_eq in Hst as ->.
        apply (Hfail 0%nat b); [simpl; lia|]. by rewrite Nat.add_0_r.
      * match goal with
        | |- context [http_attempts rt self url rest ?l ?w'] =>
            destruct (IH l w') as (Hnone & Hreq & Hsl); [by apply Hrest|]
        end.
        rewrite Hnone, Hreq, Hsl. simpl. by rewrite <- !app_assoc.
    + match goal with
        | |- context [http_attempts rt self url rest ?l ?w'] =>
            destruct (IH l w') as (Hnone & Hreq & Hsl); [by apply Hrest|]
        end.
      rewrite Hnone, Hreq, Hsl. simpl. by rewrite <- !app_assoc.
Qed.

End Fetcher.

Lemma take_range (k : nat) (n : Z) :
  (k <= Z.to_nat n)%nat -> take k (range 1 (n + 1)) = range 1 (Z.of_nat k + 1).
Proof.
  intros H. unfold range.
  replace (Z.to_nat (n + 1 - 1)) with (Z.to_nat n) by lia.
  replace (Z.to_nat (Z.of_nat k + 1 - 1)) with k by lia.
  rewrite firstn_map, take_seq. by rewrite Nat.min_l.
Qed.

(** C3. [_http_get] returns a body only if some attempt within
    [max_retries] was answered with status 200, and then it returns that
    body, after pausing [0.5 * attempt] seconds after each earlier attempt;
    when every attempt within [max_retries] ends in a fault or in a status
    other than 200 it returns nothing (it does not raise), having made
    [max_retries] requests and paused [0.5 * attempt] seconds after each. *)
Theorem http_get_contract (rt : Runtime) (self : ReviewExtractor)
    (url : string) (w : world (random rt)) :
  (forall body,
      (_http_get rt self url w).1 = Some body ->
      exists k,
        (k < Z.to_nat (max_retries self))%nat
        /\ network rt (length (requests w) + k) (get_request self url)
           = Response 200 body
        /\ requests (_http_get rt self url w).2
           = requests w ++ replicate (S k) (get_request self url)
        /\ sleeps (_http_get rt self url w).2
           = sleeps w ++ map (fun attempt => (1 # 2) * inject_Z attempt)%Q
                             (range 1 (Z.of_nat k + 1)))
  /\ ((forall k body,
         (k < Z.to_nat (max_retries self))%nat ->
         network rt (length (requests w) + k) (get_request self url)
         <> Response 200 body) ->
      (_http_get rt self url w).1 = None
      /\ requests (_http_get rt self url w).2
         = requests w ++ replicate (Z.to_nat (max_retries self)) (get_request self url)
      /\ sleeps (_http_get rt self url w).2
         = sleeps w ++ map (fun attempt => (1 # 2) * inject_Z attempt)%Q
                           (range 1 (max_retries self + 1))).
Proof.
  assert (Hlen : length (range 1 (max_retries self + 1)) = Z.to_nat (max_retries self)).
  { rewrite length_range. f_equal. lia. }
  split.
  - intros body H. unfold _http_get in *.
    destruct (http_attempts_some rt self url _ _ _ _ H) as (k & Hk & Hok & Hreq & Hsl).
    rewrite Hlen in Hk. exists k. split_and!; try done.
    rewrite Hsl, take_range by lia. reflexivity.
  - intros Hfail. unfold _http_get.
    destruct (http_attempts_none rt self url (range 1 (max_retries self + 1)) None w)
      as (Hnone & Hreq & Hsl).
    { intros k body Hk. apply Hfail. by rewrite <- Hlen. }
    rewrite Hlen in Hreq. split_and!; done.
Qed.

Lemma http_get_contract_witness :
  (_http_get (Demo.process 7 Demo.net_down) Demo.extractor "https://x/" Demo.start).1 = None
  /\ exists k,
       (k < 3)%nat
       /\ Demo.net_two_pages k (get_request Demo.extractor "https://x/")
          = Response 200 "<page 1>".
Proof.
  split.
  - apply (http_get_contract (Demo.process 7 Demo.net_down) Demo.extractor "https://x/" Demo.start).
    intros k body Hk.
    change (Z.to_nat (max_retries Demo.extractor)) with 3%nat in Hk.
    destruct k as [|[|[|k]]]; [discriminate..|lia].
  - destruct (http_get_contract (Demo.process 7 Demo.net_two_pages) Demo.extractor
                "https://x/" Demo.start) as [Hsome _].
    destruct (Hsome "<page 1>" eq_refl) as (k & Hk & Hok & _).
    exists k. split; [exact Hk | exact Hok].
Defined.

(** ** Numeric text *)

Lemma rev_app_rev_app (a b c : string) :
  String.rev_app (String.rev_app a b) c = String.rev_app b (a +:+ c).
Proof.
  revert b c. induction a as [|x a IH]; intros b c; [reflexivity|].
  simpl. rewrite IH. reflexivity.
Qed.

Lemma rev_involutive (s : string) : String.rev (String.rev s) = s.
Proof.
  unfold String.rev. rewrite rev_app_rev_app. simpl. apply append_nil_r.
Qed.

Lemma digit_not_space (a : ascii) : Text.is_digit a = true -> Text.is_space a = false.
Proof. destruct a as [[] [] [] [] [] [] [] []]; vm_compute; congruence. Qed.

Lemma digit_not_sign (a : ascii) :
  Text.is_digit a = true -> a <> "-"%char /\ a <> "+"%char /\ Ascii.eqb a "_" = false.
Proof.
  destruct a as [[] [] [] [] [] [] [] []]; vm_compute; intros H;
    try discriminate H; split_and!; congruence.
Qed.

Lemma all_digits_rev_app (a b : string) :
  all_digits (String.rev_app a b) = all_digits a && all_digits b.
Proof.
  revert b. induction a as [|x a IH]; intros b; [reflexivity|].
  simpl. rewrite IH. simpl.
  destruct (Text.is_digit x), (all_digits a); reflexivity.
Qed.

Lemma lstrip_digits (s : string) : all_digits s = true -> Text.lstrip s = s.
Proof.
  destruct s as [|a s]; [reflexivity|]. simpl.
  intros [Ha _]%andb_true_iff. by rewrite (digit_not_space a Ha).
Qed.

Lemma strip_digits (s : string) : all_digits s = true -> Text.strip s = s.
Proof.
  intros H. unfold Text.strip, Text.rstrip.
  rewrite (lstrip_digits s H), lstrip_digits, rev_involutive; [reflexivity|].
  unfold String.rev. by rewrite all_digits_rev_app, H.
Qed.

Lemma int_digits_value (s : string) :
  all_digits s = true -> s <> "" ->
  forall after acc, int_digits after acc s = Some (digits_value acc s).
Proof.
  induction s as [|a s IH]; [done|].
  simpl. intros [Ha Hs]%andb_true_iff _ after acc. rewrite Ha.
  destruct s as [|b s]; [reflexivity|]. by apply IH.
Qed.

(** [int] of a run of digits is the number the run denotes. *)
Lemma py_int_digits (s : string) :
  all_digits s = true -> s <> "" -> py_int s = Ok (digits_value 0 s).
Proof.
  intros H Hne. unfold py_int. rewrite (strip_digits s H).
  destruct s as [|a s]; [done|].
  assert (Ha : Text.is_digit a = true) by (simpl in H; by apply andb_true_iff in H as [? _]).
  destruct (digit_not_sign a Ha) as (Hm & Hp & _).
  assert (Hbody : (match String a s with
                   | String "-" r => (-1, r)
                   | String "+" r => (1, r)
                   | _ => (1, String a s)
                   end) = (1, String a s)).
  { destruct a as [[] [] [] [] [] [] [] []]; try reflexivity; congruence. }
  rewrite Hbody, (int_digits_value _ H Hne). f_equal. lia.
Qed.

Lemma py_int_empty : py_int "" = Raise ValueError.
Proof. reflexivity. Qed.

Lemma span_digits_digits (s : string) :
  all_digits (Re.span_digits s).1 = true.
Proof.
  induction s as [|a s IH]; [reflexivity|]. simpl.
  destruct (Text.is_digit a) eqn:E; [|reflexivity]. simpl. by rewrite E, IH.
Qed.

(** A run of digits followed by no further digit is what [span_digits]
    splits off. *)
Lemma span_digits_run (run post : string) :
  all_digits run = true -> starts_with_digit post = false ->
  Re.span_digits (run +:+ post) = (run, post).
Proof.
  intros Hrun Hpost. induction run as [|a run IH].
  - rewrite append_nil_l. destruct post as [|b post]; [reflexivity|].
    simpl in *. by rewrite Hpost.
  - rewrite append_cons. simpl in *.
    apply andb_true_iff in Hrun as [Ha Hrun]. rewrite Ha, (IH Hrun). reflexivity.
Qed.

Lemma search_digits_none (s : string) :
  no_digit s = true -> Re.search_digits s = None.
Proof.
  induction s as [|a s IH]; [reflexivity|]. simpl.
  intros [Ha Hs]%andb_true_iff. apply negb_true_iff in Ha. rewrite Ha. by apply IH.
Qed.

(** The first run of digits of a text is what the search returns. *)
Lemma search_digits_first_run (pre run post : string) :
  no_digit pre = true -> all_digits run = true -> run <> "" ->
  starts_with_digit post = false ->
  Re.search_digits (pre +:+ run +:+ post) = Some run.
Proof.
  intros Hpre Hrun Hne Hpost. induction pre as [|a pre IH].
  - rewrite append_nil_l. destruct run as [|b run]; [done|].
    rewrite append_cons.
    change (Re.search_digits (String b (run +:+ post)))
      with (if Text.is_digit b
            then Some (Re.span_digits (String b (run +:+ post))).1
            else Re.search_digits (run +:+ post)).
    assert (Hb : Text.is_digit b = true)
      by (simpl in Hrun; by apply andb_true_iff in Hrun as [? _]).
    rewrite Hb, <- append_cons, (span_digits_run _ _ Hrun Hpost). reflexivity.
  - rewrite append_cons. simpl in *.
    apply andb_true_iff in Hpre as [Ha Hpre]. apply negb_true_iff in Ha.
    rewrite Ha. by apply IH.
Qed.

(** What either search returns is a run of digits that is not empty. *)
Lemma search_digits_some (s d : string) :
  Re.search_digits s = Some d -> all_digits d = true /\ d <> "".
Proof.
  induction s as [|a s IH]; [discriminate|].
  change (Re.search_digits (String a s))
    with (if Text.is_digit a then Some (Re.span_digits (String a s)).1
          else Re.search_digits s).
  destruct (Text.is_digit a) eqn:E; [|exact IH].
  intros [= <-]. split; [apply (span_digits_digits (String a s))|].
  simpl. by rewrite E.
Qed.

Lemma search_percent_some (s d : string) :
  Re.search_percent s = Some d -> all_digits d = true /\ d <> "".
Proof.
  induction s as [|a s IH]; [discriminate|].
  change (Re.search_percent (String a s))
    with (if Text.is_digit a
          then match (Re.span_digits (String a s)).2 with
               | String "%" _ => Some (Re.span_digits (String a s)).1
               | _ => Re.search_percent s
               end
          else Re.search_percent s).
  destruct (Text.is_digit a) eqn:E; [|exact IH].
  destruct (Re.span_digits (String a s)).2 as [|c r] eqn:E2; [exact IH|].
  destruct (Ascii.eqb c "%") eqn:Ec.
  - apply Ascii.eqb_eq in Ec as ->. intros [= <-].
    split; [apply (span_digits_digits (String a s))|]. simpl. by rewrite E.
  - assert (Hc : c <> "%"%char) by (by apply Ascii.eqb_neq).
    destruct c as [[] [] [] [] [] [] [] []]; try exact IH; congruence.
Qed.

Lemma sub_non_digits_none (s : string) :
  no_digit s = true -> Re.sub_non_digits s = "".
Proof.
  induction s as [|a s IH]; [reflexivity|]. simpl.
  intros [Ha Hs]%andb_true_iff. apply negb_true_iff in Ha. rewrite Ha. by apply IH.
Qed.

(** ** The markup extractor *)

Lemma rmap_Forall2 {A B} (f : A -> result B) (l : list A) (bs : list B) :
  rmap f l = Ok bs -> Forall2 (fun a b => f a = Ok b) l bs.
Proof.
  revert bs. induction l as [|a l IH]; intros bs; simpl.
  - intros [= <-]. constructor.
  - destruct (f a) as [b|e] eqn:Ha; [|discriminate]. simpl.
    destruct (rmap f l) as [bs'|e]; [|discriminate]. simpl.
    intros [= <-]. constructor; [exact Ha | by apply IH].
Qed.

Lemma rmap_total {A B} (f : A -> result B) (l : list A) :
  (forall a, exists b, f a = Ok b) -> exists bs, rmap f l = Ok bs.
Proof.
  intros Hf. induction l as [|a l [bs IH]]; simpl; [by eexists|].
  destruct (Hf a) as [b ->]. rewrite IH. simpl. by eexists.
Qed.

Lemma sources_none (tags : list tag) :
  Forall (fun t => get t "src" = None) tags -> sources tags = [].
Proof.
  induction 1 as [|t tags Ht _ IH]; [reflexivity|].
  unfold sources in *. simpl. by rewrite Ht.
Qed.

(** The helpful count never raises: the text handed to [int] is a run of
    digits. *)
Lemma parse_helpful_total (rev : tag) : exists h, parse_helpful rev = Ok h.
Proof.
  unfold parse_helpful. destruct (tag_select_one sel_helpful rev) as [el|]; [|by eexists].
  destruct (Re.search_digits _) as [d|] eqn:Hd; [|by eexists].
  destruct (search_digits_some _ _ Hd) as [Hall Hne].
  rewrite (py_int_digits d Hall Hne). simpl. by eexists.
Qed.

Lemma parse_review_total (rev : tag) : exists r, parse_review rev = Ok r.
Proof.
  unfold parse_review. destruct (parse_helpful_total rev) as [h ->]. simpl. by eexists.
Qed.

Lemma parse_review_helpful (rev : tag) (r : Review) :
  parse_review rev = Ok r -> parse_helpful rev = Ok (rv_helpful r).
Proof.
  unfold parse_review. destruct (parse_helpful rev) as [h|e]; [|discriminate].
  simpl. by intros [= <-].
Qed.

Lemma parse_review_absent (rev : tag) (r : Review) :
  parse_review rev = Ok r -> absent_fields rev r.
Proof.
  intros H. pose proof (parse_review_helpful rev r H) as Hh.
  unfold parse_review in H. rewrite Hh in H. simpl in H. injection H as <-.
  unfold absent_fields, text_of. simpl. split_and!; try done.
  - by intros ->.
  - by intros ->.
  - by intros ->.
  - by intros ->.
  - by intros ->.
  - intros Hnone. unfold parse_helpful in Hh. rewrite Hnone in Hh. congruence.
  - intros Hall. by rewrite (sources_none _ Hall).
  - intros Hall. by rewrite (sources_none _ Hall).
  - by intros ->.
  - intros ->. apply bool_decide_eq_false_2. by intros [? ?].
  - intros ->. apply bool_decide_eq_false_2. by intros [? ?].
Qed.

Lemma span_digits_app (s : string) :
  (Re.span_digits s).1 +:+ (Re.span_digits s).2 = s.
Proof.
  induction s as [|a s IH]; [reflexivity|]. simpl.
  destruct (Text.is_digit a); [|reflexivity].
  simpl. by rewrite append_cons, IH.
Qed.

Lemma span_digits_rest (s : string) :
  starts_with_digit (Re.span_digits s).2 = false.
Proof.
  induction s as [|a s IH]; [reflexivity|]. simpl.
  destruct (Text.is_digit a) eqn:Ha; [exact IH | simpl; exact Ha].
Qed.

(** Every text has no digit at all, or splits at its first run of digits. *)
Lemma first_run_exists (t : string) :
  no_digit t = true
  \/ exists pre run post,
       t = pre +:+ run +:+ post /\ no_digit pre = true /\ all_digits run = true
       /\ run <> "" /\ starts_with_digit post = false.
Proof.
  induction t as [|a t IH]; [by left|].
  destruct (Text.is_digit a) eqn:Ha.
  - right. exists "", (Re.span_digits (String a t)).1, (Re.span_digits (String a t)).2.
    split_and!.
    + by rewrite append_nil_l, span_digits_app.
    + reflexivity.
    + apply span_digits_digits.
    + simpl. by rewrite Ha.
    + apply span_digits_rest.
  - destruct IH as [Hno|(pre & run & post & -> & Hpre & Hrun & Hne & Hpost)].
    + left. simpl. by rewrite Ha, Hno.
    + right. exists (String a pre), run, post. split_and!; try done.
      simpl. by rewrite Ha, Hpre.
Qed.



Lemma histogram_entry_total (soup : document) (star : string) :
  exists entries, histogram_entry soup star = Ok entries.
Proof.
  unfold histogram_entry.
  destruct (select_one (sel_histogram star) soup) as [el|]; [|by eexists].
  destruct (Re.search_percent _) as [d|] eqn:Hd; [|by eexists].
  destruct (search_percent_some _ _ Hd) as [Hall Hne].
  rewrite (py_int_digits d Hall Hne). simpl. by eexists.
Qed.

Lemma concat_nils {A} (ls : list (list A)) :
  Forall (fun l => l = []) ls -> concat ls = [].
Proof. induction 1 as [|l ls -> _ IH]; [reflexivity | exact IH]. Qed.


Lemma parse_summary_info_total (soup : document) :
  exists si, _parse_summary_info soup = Ok si.
Proof.
  destruct (rmap_total (histogram_entry soup) star_levels (histogram_entry_total soup))
    as [entries Hentries].
  unfold _parse_summary_info. rewrite Hentries. simpl. by eexists.
Qed.

Lemma parse_reviews_total (soup : document) :
  exists revs, _parse_reviews_from_soup soup = Ok revs.
Proof. apply rmap_total, parse_review_total. Qed.


(** ** The record assembler *)

Lemma range_cons (a b : Z) : a < b -> range a b = a :: range (a + 1) b.
Proof.
  intros H. unfold range.
  replace (Z.to_nat (b - a)) with (S (Z.to_nat (b - (a + 1)))) by lia.
  rewrite <- cons_seq. simpl. rewrite Z.add_0_r. f_equal.
  rewrite <- fmap_S_seq. rewrite <- list_fmap_compose.
  apply list_fmap_ext. intros _ i _. simpl. lia.
Qed.

Lemma NoDup_range (a b : Z) : NoDup (range a b).
Proof.
  unfold range.
  assert (Hinj : Inj (=) (=) (fun i : nat => a + Z.of_nat i)) by (intros i j; lia).
  apply (NoDup_fmap_2 _), NoDup_seq.
Qed.

Lemma NoDup_take {A} (n : nat) (l : list A) : NoDup l -> NoDup (take n l).
Proof.
  intros H. rewrite <- (take_drop n l) in H. by apply NoDup_app in H as [? _].
Qed.

Section Pages.
Variable rt : Runtime.
Variable self : ReviewExtractor.
Variables asin domain_code sort_by : string.
Variable filters : Filters.

Local Abbreviation W := (world (random rt)).
Local Abbreviation rows := (page_rows asin domain_code sort_by filters).
Local Abbreviation loop := (fetch_pages rt self asin domain_code sort_by filters).

(** Once both page-level dicts are set, the loop only appends the rows of
    the pages it parses, built with those same dicts. *)
Lemma fetch_pages_frozen (pages : list Z) :
  forall (p : ProductInfo) (s : SummaryInfo) (records : list ReviewRecord) (w : W),
  exists pgs w',
    loop pages (Some p) (Some s) records w
    = (Ok (records ++ flat_map (rows (Some p) (Some s)) pgs), w')
    /\ (exists n, map fst pgs = take n pages)
    /\ Forall (parsed_page rt) pgs.
Proof.
  induction pages as [|page rest IH]; intros p s records w.
  - exists [], w. simpl. rewrite app_nil_r.
    split_and!; [done | by exists 0%nat | constructor].
  - simpl. destruct (_http_get _ _ _ _) as [html w1].
    destruct html as [[|a h]|].
    + eexists [], _. simpl. rewrite app_nil_r.
      split_and!; [done | by exists 0%nat | constructor].
    + destruct (parse_reviews_total (BeautifulSoup rt (String a h))) as [revs Hrevs].
      rewrite Hrevs. destruct (uniform _ _ _ _) as [pause g].
      match goal with
      | |- context [loop rest _ _ ?recs ?w2] =>
          destruct (IH p s recs w2) as (pgs & w' & Hrun & [n Hn] & Hparsed)
      end.
      exists ((page, revs) :: pgs), w'. rewrite Hrun. simpl.
      rewrite <- app_assoc. split_and!; [done| |].
      * exists (S n). simpl. by rewrite Hn.
      * constructor; [by eexists | exact Hparsed].
    + eexists [], _. simpl. rewrite app_nil_r.
      split_and!; [done | by exists 0%nat | constructor].
Qed.

(** From the start of a fetch sequence: the dicts are those parsed from
    the first page, when there is one. *)
Lemma fetch_pages_first (rest : list Z) (records : list ReviewRecord) (w : W) :
  exists pgs w' pi si,
    loop (1 :: rest) None None records w
    = (Ok (records ++ flat_map (rows pi si) pgs), w')
    /\ (exists n, map fst pgs = take n (1 :: rest))
    /\ Forall (parsed_page rt) pgs
    /\ match first_page rt self asin domain_code sort_by filters w with
       | Some soup =>
           pi = Some (_parse_product_info soup)
           /\ exists si0, _parse_summary_info soup = Ok si0 /\ si = Some si0
       | None => pgs = []
       end.
Proof.
  unfold first_page. simpl. destruct (_http_get _ _ _ _) as [html w1]. simpl.
  destruct html as [[|a h]|].
  - eexists [], _, None, None. simpl. rewrite app_nil_r.
    repeat split; try done; by exists 0%nat.
  - destruct (parse_summary_info_total (BeautifulSoup rt (String a h))) as [si0 Hsi].
    destruct (parse_reviews_total (BeautifulSoup rt (String a h))) as [revs Hrevs].
    rewrite Hsi, Hrevs. simpl. destruct (uniform _ _ _ _) as [pause g].
    match goal with
    | |- context [loop rest (Some ?p) (Some ?s) ?recs ?w2] =>
        destruct (fetch_pages_frozen rest p s recs w2)
          as (pgs & w' & Hrun & [n Hn] & Hparsed)
    end.
    exists ((1, revs) :: pgs), w', (Some (_parse_product_info (BeautifulSoup rt (String a h)))),
      (Some si0).
    rewrite Hrun. simpl. rewrite <- app_assoc.
    split; [done|]. split; [|split; [|split]].
    + exists (S n). simpl. by rewrite Hn.
    + constructor; [by eexists | exact Hparsed].
    + done.
    + by exists si0.
  - eexists [], _, None, None. simpl. rewrite app_nil_r.
    repeat split; try done; by exists 0%nat.
Qed.

End Pages.

(** A live fetch returns the rows of the pages it parsed, all built with the
    dicts of the first page. *)
Lemma fetch_reviews_live (rt : Runtime) (self : ReviewExtractor)
    (asin domain_code : string) (max_pages : Z) (filters : option Filters)
    (sort_by : string) (w : world (random rt)) :
  exists records w' pages pi si,
    fetch_reviews rt self asin domain_code max_pages filters sort_by false w
    = (Ok records, w')
    /\ records
       = flat_map (page_rows asin domain_code sort_by (default ∅ filters) pi si) pages
    /\ NoDup (map fst pages)
    /\ Forall (parsed_page rt) pages
    /\ (records = []
        \/ exists soup si0,
             first_page rt self asin domain_code sort_by (default ∅ filters) w = Some soup
             /\ pi = Some (_parse_product_info soup)
             /\ _parse_summary_info soup = Ok si0 /\ si = Some si0).
Proof.
  unfold fetch_reviews.
  destruct (Z_lt_le_dec 0 max_pages) as [Hpos|Hneg].
  - rewrite (range_cons 1 (max_pages + 1)) by lia.
    destruct (fetch_pages_first rt self asin domain_code sort_by (default ∅ filters)
                (range (1 + 1) (max_pages + 1)) [] w)
      as (pgs & w' & pi & si & Hrun & [n Hn] & Hparsed & Hfirst).
    exists (flat_map (page_rows asin domain_code sort_by (default ∅ filters) pi si) pgs),
      w', pgs, pi, si.
    split; [exact Hrun|]. split; [done|]. split; [|split; [done|]].
    + rewrite Hn, <- (range_cons 1 (max_pages + 1)) by lia.
      apply NoDup_take, NoDup_range.
    + destruct (first_page _ _ _ _ _ _ _) as [soup|].
      * destruct Hfirst as (Hpi & si0 & Hsi & Hsi0). right. by exists soup, si0.
      * left. by rewrite Hfirst.
  - rewrite range_nonpositive by lia. simpl.
    exists [], w, [], None, None.
    split; [done|]. split; [done|]. split; [constructor|]. split; [constructor|].
    by left.
Qed.

Lemma filter_page_rows_other (asin dc sort_by : string) (fs : Filters)
    (pi : option ProductInfo) (si : option SummaryInfo)
    (pgs : list (Z * list Review)) (page : Z) :
  page ∉ map fst pgs ->
  filter (fun r => currentPage r = page) (flat_map (page_rows asin dc sort_by fs pi si) pgs) = [].
Proof.
  induction pgs as [|pg pgs IH]; [done|].
  simpl. intros [Hne Hnotin]%not_elem_of_cons. rewrite filter_app, (IH Hnotin), app_nil_r.
  unfold page_rows. generalize (Z.of_nat (length pg.2)). intros n.
  induction pg.2 as [|r rs IHr]; [done|].
  simpl. rewrite filter_cons_False; [exact IHr | simpl; congruence].
Qed.

Lemma filter_page_rows_same (asin dc sort_by : string) (fs : Filters)
    (pi : option ProductInfo) (si : option SummaryInfo) (pg : Z * list Review) :
  filter (fun r => currentPage r = pg.1) (page_rows asin dc sort_by fs pi si pg)
  = page_rows asin dc sort_by fs pi si pg.
Proof.
  unfold page_rows. generalize (Z.of_nat (length pg.2)). intros n.
  induction pg.2 as [|r rs IHr]; [done|].
  simpl. rewrite filter_cons_True by done. by rewrite IHr.
Qed.

Lemma page_rows_page (asin dc sort_by : string) (fs : Filters)
    (pi : option ProductInfo) (si : option SummaryInfo)
    (pgs : list (Z * list Review)) (r : ReviewRecord) :
  r ∈ flat_map (page_rows asin dc sort_by fs pi si) pgs ->
  exists pg, pg ∈ pgs /\ currentPage r = pg.1
             /\ countReviews r = Z.of_nat (length pg.2)
             /\ exists rv, rv ∈ pg.2 /\ r = assemble asin dc sort_by fs pi si pg.1
                                              (Z.of_nat (length pg.2)) rv.
Proof.
  intros Hr. apply list_elem_of_In, in_flat_map in Hr as (pg & Hpg & Hr).
  apply list_elem_of_In in Hpg, Hr. unfold page_rows in Hr.
  apply list_elem_of_fmap in Hr as (rv & -> & Hrv). exists pg. eauto 10.
Qed.

(** With distinct page numbers, every record carries the number of records
    of its page. *)
Lemma count_reviews_per_page (asin dc sort_by : string) (fs : Filters)
    (pi : option ProductInfo) (si : option SummaryInfo)
    (pgs : list (Z * list Review)) :
  NoDup (map fst pgs) ->
  Forall (fun r => countReviews r
                   = Z.of_nat (length (same_page
                        (flat_map (page_rows asin dc sort_by fs pi si) pgs) r)))
         (flat_map (page_rows asin dc sort_by fs pi si) pgs).
Proof.
  unfold same_page. intros Hnodup. apply Forall_forall. intros r.
  induction pgs as [|pg pgs IH]; [by intros ?%elem_of_nil|].
  apply NoDup_cons in Hnodup as [Hnotin Hnodup].
  simpl. rewrite filter_app, length_app. intros [Hr|Hr]%elem_of_app.
  - destruct (page_rows_page asin dc sort_by fs pi si [pg] r) as (pg' & Hpg' & Hp & Hc & _).
    { simpl. by rewrite app_nil_r. }
    apply list_elem_of_singleton in Hpg' as ->. rewrite Hc. rewrite Hp.
    rewrite (filter_page_rows_same asin dc sort_by fs pi si pg).
    rewrite (filter_page_rows_other asin dc sort_by fs pi si pgs pg.1 Hnotin).
    unfold page_rows. rewrite length_map. simpl. lia.
  - destruct (page_rows_page _ _ _ _ _ _ _ _ Hr) as (pg' & Hpg' & Hp & _).
    assert (Hother : currentPage r ∉ map fst [pg]).
    { simpl. intros Heq%list_elem_of_singleton. apply Hnotin.
      rewrite <- Heq, Hp. by apply list_elem_of_fmap_2. }
    pose proof (filter_page_rows_other asin dc sort_by fs pi si [pg] _ Hother) as Hnil.
    simpl in Hnil. rewrite app_nil_r in Hnil. rewrite Hnil. simpl. by apply IH.
Qed.


(** The records of the two-page run: three from page 1, one from page 2, all
    with the title and the rating count of page 1. *)
Example live_records_demo :
  map (fun r => (currentPage r, countReviews r, productTitle r, countRatings r))
      Demo.live_records
  = [(1, 3, Some "Kettle", Some 1234); (1, 3, Some "Kettle", Some 1234);
     (1, 3, Some "Kettle", Some 1234); (2, 1, Some "Kettle", Some 1234)].
Proof. vm_compute. reflexivity. Qed.

(** ** The mock generator *)

Section Mock.
Variable rt : Runtime.

Local Abbreviation W := (world (random rt)).

(** A property of every made record, and of the records so far, holds of
    the records of the inner loop. *)
Lemma mock_page_Forall (P : ReviewRecord -> Prop) (make : W -> ReviewRecord * W) :
  (forall w, P (make w).1) ->
  forall turns records w,
    Forall P records -> Forall P (mock_page rt make turns records w).1.
Proof.
  intros Hmake. induction turns as [|turns IH]; intros records w Hrecords; [done|].
  simpl. pose proof (Hmake w) as Hw. destruct (make w) as [rec w1].
  apply IH. apply Forall_app. split; [done | by constructor].
Qed.

Lemma mock_pages_Forall (P : ReviewRecord -> Prop)
    (make : Z -> Z -> W -> ReviewRecord * W) :
  (forall page size w, P (make page size w).1) ->
  forall pages records w,
    Forall P records -> Forall P (mock_pages rt make pages records w).1.
Proof.
  intros Hmake. induction pages as [|page rest IH]; intros records w Hrecords; [done|].
  simpl. destruct (randint _ _ _ _) as [size g].
  pose proof (mock_page_Forall P (make page size) (Hmake page size)
                (Z.to_nat size) records (set_rng g w) Hrecords) as Hpage.
  destruct (mock_page _ _ _ _ _) as [records1 w1]. by apply IH.
Qed.

(** The requests of a run are untouched by the mock loops. *)
Lemma mock_record_requests asin dc sort_by fs pt pr summary total page size (w : W) :
  requests (mock_record rt asin dc sort_by fs pt pr summary total page size w).2
  = requests w.
Proof.
  unfold mock_record, choice.
  repeat match goal with
         | |- context [let '(_, _) := ?x in _] => destruct x
         end.
  reflexivity.
Qed.

Lemma mock_page_requests (make : W -> ReviewRecord * W) :
  (forall w, requests (make w).2 = requests w) ->
  forall turns records w,
    requests (mock_page rt make turns records w).2 = requests w.
Proof.
  intros Hmake. induction turns as [|turns IH]; intros records w; [done|].
  simpl. pose proof (Hmake w) as Hw. destruct (make w) as [rec w1].
  rewrite IH. exact Hw.
Qed.

Lemma mock_pages_requests (make : Z -> Z -> W -> ReviewRecord * W) :
  (forall page size w, requests (make page size w).2 = requests w) ->
  forall pages records w,
    requests (mock_pages rt make pages records w).2 = requests w.
Proof.
  intros Hmake. induction pages as [|page rest IH]; intros records w; [done|].
  simpl. destruct (randint _ _ _ _) as [size g].
  pose proof (mock_page_requests (make page size) (Hmake page size)
                (Z.to_nat size) records (set_rng g w)) as Hpage.
  destruct (mock_page _ _ _ _ _) as [records1 w1]. rewrite IH. exact Hpage.
Qed.

Lemma generate_mock_Forall (P : ReviewRecord -> Prop)
    (asin dc : string) (max_pages : Z) (fs : Filters) (sort_by : string) (w : W) :
  (forall pt pr summary total page size w',
      P (mock_record rt asin dc sort_by fs pt pr summary total page size w').1) ->
  Forall P (_generate_mock rt asin dc max_pages fs sort_by w).1.
Proof.
  intros HP. unfold _generate_mock.
  repeat match goal with
         | |- context [let '(_, _) := ?x in _] => destruct x
         end.
  apply mock_pages_Forall; [|constructor]. intros page size w'. apply HP.
Qed.

Lemma generate_mock_requests
    (asin dc : string) (max_pages : Z) (fs : Filters) (sort_by : string) (w : W) :
  requests (_generate_mock rt asin dc max_pages fs sort_by w).2 = requests w.
Proof.
  unfold _generate_mock.
  repeat match goal with
         | |- context [let '(_, _) := ?x in _] => destruct x
         end.
  rewrite mock_pages_requests; [reflexivity|].
  intros page size w'. apply mock_record_requests.
Qed.

Lemma mock_record_constants asin dc sort_by fs pt pr summary total page size (w : W) :
  mock_constants asin
    (mock_record rt asin dc sort_by fs pt pr summary total page size w).1
  /\ multi_valued_ok
       (mock_record rt asin dc sort_by fs pt pr summary total page size w).1.
Proof.
  unfold mock_record, choice.
  repeat match goal with
         | |- context [let '(_, _) := ?x in _] => destruct x
         end.
  simpl. unfold mock_constants, multi_valued_ok. simpl. eauto 10.
Qed.

End Mock.

(** *** Two calls with the same seed *)

Section SameSeed.
Variable rt : Runtime.
Variables hash1 hash2 : string -> string -> Z.
Variables clock1 clock2 : nat -> string.

Local Abbreviation W := (world (random rt)).
Local Abbreviation rt1 := (in_process hash1 clock1 rt).
Local Abbreviation rt2 := (in_process hash2 clock2 rt).

(** Two turns started from the same generator state make the same record
    up to its date, and leave the same generator state. *)
Lemma mock_record_agree asin dc sort_by fs pt pr summary total page size (w1 w2 : W) :
  rng_state w1 = rng_state w2 ->
  without_date (mock_record rt1 asin dc sort_by fs pt pr summary total page size w1).1
  = without_date (mock_record rt2 asin dc sort_by fs pt pr summary total page size w2).1
  /\ rng_state (mock_record rt1 asin dc sort_by fs pt pr summary total page size w1).2
     = rng_state (mock_record rt2 asin dc sort_by fs pt pr summary total page size w2).2.
Proof.
  intros Hrng. unfold mock_record, choice. simpl. rewrite Hrng.
  repeat match goal with
         | |- context [let '(_, _) := ?x in _] => destruct x
         end.
  split; reflexivity.
Qed.

Lemma mock_page_agree (make1 make2 : W -> ReviewRecord * W) :
  (forall w1 w2, rng_state w1 = rng_state w2 ->
     without_date (make1 w1).1 = without_date (make2 w2).1
     /\ rng_state (make1 w1).2 = rng_state (make2 w2).2) ->
  forall turns records1 records2 (w1 w2 : W),
    map without_date records1 = map without_date records2 ->
    rng_state w1 = rng_state w2 ->
    map without_date (mock_page rt1 make1 turns records1 w1).1
    = map without_date (mock_page rt2 make2 turns records2 w2).1
    /\ rng_state (mock_page rt1 make1 turns records1 w1).2
       = rng_state (mock_page rt2 make2 turns records2 w2).2.
Proof.
  intros Hmake. induction turns as [|turns IH]; intros records1 records2 w1 w2 Hrec Hrng;
    [done|].
  simpl. destruct (Hmake w1 w2 Hrng) as [Hr Hg].
  destruct (make1 w1) as [r1 w1'], (make2 w2) as [r2 w2']. simpl in Hr, Hg.
  apply IH; [|exact Hg]. rewrite !map_app. simpl. by rewrite Hrec, Hr.
Qed.

Lemma mock_pages_agree (make1 make2 : Z -> Z -> W -> ReviewRecord * W) :
  (forall page size w1 w2, rng_state w1 = rng_state w2 ->
     without_date (make1 page size w1).1 = without_date (make2 page size w2).1
     /\ rng_state (make1 page size w1).2 = rng_state (make2 page size w2).2) ->
  forall pages records1 records2 (w1 w2 : W),
    map without_date records1 = map without_date records2 ->
    rng_state w1 = rng_state w2 ->
    map without_date (mock_pages rt1 make1 pages records1 w1).1
    = map without_date (mock_pages rt2 make2 pages records2 w2).1.
Proof.
  intros Hmake. induction pages as [|page rest IH];
    intros records1 records2 w1 w2 Hrec Hrng; [done|].
  simpl. rewrite Hrng. destruct (randint _ _ _ _) as [size g].
  destruct (mock_page_agree (make1 page size) (make2 page size) (Hmake page size)
              (Z.to_nat size) records1 records2 (set_rng g w1) (set_rng g w2) Hrec eq_refl)
    as [Hrecs Hg].
  destruct (mock_page rt1 _ _ _ _) as [recs1 w1'], (mock_page rt2 _ _ _ _) as [recs2 w2'].
  by apply IH.
Qed.

(** Two calls of the mock generator whose hashes of the pair of arguments
    agree on their low 32 bits return the same records up to the date, at
    any two times and from any two states of the run: the generator is
    seeded anew from that hash at each call, and nothing else of the process
    reaches the records. *)
Lemma generate_mock_same_seed
    (asin dc : string) (max_pages : Z) (fs : Filters) (sort_by : string) (w1 w2 : W) :
  Z.land (hash1 asin dc) 0xFFFFFFFF = Z.land (hash2 asin dc) 0xFFFFFFFF ->
  map without_date (_generate_mock rt1 asin dc max_pages fs sort_by w1).1
  = map without_date (_generate_mock rt2 asin dc max_pages fs sort_by w2).1.
Proof.
  intros Hseed. unfold _generate_mock. simpl. rewrite Hseed.
  repeat match goal with
         | |- context [let '(_, _) := ?x in _] => destruct x
         end.
  apply mock_pages_agree; [|reflexivity|reflexivity].
  intros page size w1' w2'. apply mock_record_agree.
Qed.

End SameSeed.

(** Two calls in one process, where the hash of a text does not change,
    return the same records up to the date. *)
Lemma generate_mock_same_process (rt : Runtime) (clock1 clock2 : nat -> string)
    (asin dc : string) (max_pages : Z) (fs : Filters) (sort_by : string)
    (w1 w2 : world (random rt)) :
  map without_date
      (_generate_mock (in_process (hash_pair rt) clock1 rt) asin dc max_pages fs sort_by w1).1
  = map without_date
      (_generate_mock (in_process (hash_pair rt) clock2 rt) asin dc max_pages fs sort_by w2).1.
Proof. by apply generate_mock_same_seed. Qed.

Lemma generate_mock_same_process_demo :
  map without_date
      (_generate_mock (in_process (hash_pair (Demo.process 7 Demo.net_down))
                                  (fun _ => "Reviewed on 03 November 2026")
                                  (Demo.process 7 Demo.net_down))
                      "B000TEST1" "com" 1 ∅ "recent" Demo.start).1
  = map without_date
      (_generate_mock (in_process (hash_pair (Demo.process 7 Demo.net_down))
                                  (fun _ => "Reviewed on 04 November 2026")
                                  (Demo.process 7 Demo.net_down))
                      "B000TEST1" "com" 1 ∅ "recent"
                      (sleep (1 # 2) (clock_read Demo.start))).1.
Proof. apply generate_mock_same_process. Qed.

(** C2. The claim asks that any two calls with the same arguments return the
    same records up to the date. Within one process they do
    ([generate_mock_same_process]). Two processes that differ only in the key
    under which they hash text (the salt an interpreter draws at start-up)
    seed the generator differently, and the same mock call returns different
    records in each, dates set aside. *)
Theorem generate_mock_across_processes :
  map without_date (Demo.mock_records 7) <> map without_date (Demo.mock_records 8).
Proof.
  intros H. apply (f_equal (map reviewId)) in H. vm_compute in H. discriminate H.
Qed.

(** C10. Every record of the mock generator has [vine] false, [variationId]
    equal to the [asin] argument, and a [variationList] of exactly one
    element. *)
Theorem mock_generator_constants (rt : Runtime) (asin domain_code : string)
    (max_pages : Z) (filters : Filters) (sort_by : string) (w : world (random rt)) :
  Forall (mock_constants asin)
         (_generate_mock rt asin domain_code max_pages filters sort_by w).1.
Proof.
  apply generate_mock_Forall. intros. apply mock_record_constants.
Qed.

Example mock_records_demo :
  map (fun r => (currentPage r, countReviews r, vine r, variationId r, variationList r))
      (Demo.mock_records 7)
  = [(1, 8, Some false, Some "B000TEST1", Some ["Color: Black"]);
     (1, 8, Some false, Some "B000TEST1", Some ["Style: Single"]);
     (1, 8, Some false, Some "B000TEST1", Some ["Color: Black"]);
     (1, 8, Some false, Some "B000TEST1", Some ["Style: Single"]);
     (1, 8, Some false, Some "B000TEST1", Some ["Style: Single"]);
     (1, 8, Some false, Some "B000TEST1", Some ["Size: Large"]);
     (1, 8, Some false, Some "B000TEST1", Some ["Color: Black"]);
     (1, 8, Some false, Some "B000TEST1", Some ["Color: Black"])].
Proof. vm_compute. reflexivity. Qed.

(** ** Multi-valued fields *)

Lemma or_None_ok {A} (l : list A) : null_or_nonempty (or_None l).
Proof. by destruct l. Qed.

Lemma parse_review_multi (rev : tag) (r : Review) :
  parse_review rev = Ok r ->
  null_or_nonempty (rv_images r) /\ null_or_nonempty (rv_videos r)
  /\ null_or_nonempty (rv_variations r).
Proof.
  unfold parse_review. destruct (parse_helpful rev) as [h|e]; [|discriminate].
  simpl. intros [= <-]. simpl. split_and!; apply or_None_ok.
Qed.


(** ** No page to fetch *)

Lemma generate_mock_nonpositive (rt : Runtime) (asin dc : string) (max_pages : Z)
    (fs : Filters) (sort_by : string) (w : world (random rt)) :
  max_pages <= 0 -> (_generate_mock rt asin dc max_pages fs sort_by w).1 = [].
Proof.
  intros H. unfold _generate_mock.
  repeat match goal with
         | |- context [let '(_, _) := ?x in _] => destruct x
         end.
  by rewrite range_nonpositive.
Qed.

(** C9. With [max_pages] at most 0, [fetch_reviews] returns the empty
    sequence in live mode and in mock mode, and sends no request. *)
Theorem fetch_reviews_no_pages (rt : Runtime) (self : ReviewExtractor)
    (asin domain_code : string) (max_pages : Z) (filters : option Filters)
    (sort_by : string) (mock : bool) (w : world (random rt)) :
  max_pages <= 0 ->
  (fetch_reviews rt self asin domain_code max_pages filters sort_by mock w).1 = Ok []
  /\ requests (fetch_reviews rt self asin domain_code max_pages filters sort_by mock w).2
     = requests w.
Proof.
  intros H. unfold fetch_reviews. destruct mock.
  - pose proof (generate_mock_nonpositive rt asin domain_code max_pages
                  (default ∅ filters) sort_by w H) as Hnil.
    pose proof (generate_mock_requests rt asin domain_code max_pages
                  (default ∅ filters) sort_by w) as Hreq.
    destruct (_generate_mock _ _ _ _ _ _ _) as [records w']. simpl in *.
    by rewrite Hnil.
  - by rewrite range_nonpositive.
Qed.

Lemma fetch_reviews_no_pages_witness :
  (fetch_reviews (Demo.process 7 Demo.net_two_pages) Demo.extractor
                 "B000TEST1" "uk" 0 None "recent" false Demo.start).1 = Ok []
  /\ (fetch_reviews (Demo.process 7 Demo.net_two_pages) Demo.extractor
                    "B000TEST1" "uk" (-2) None "recent" true Demo.start).1 = Ok [].
Proof.
  split.
  - apply (fetch_reviews_no_pages (Demo.process 7 Demo.net_two_pages) Demo.extractor
             "B000TEST1" "uk" 0 None "recent" false Demo.start). lia.
  - apply (fetch_reviews_no_pages (Demo.process 7 Demo.net_two_pages) Demo.extractor
             "B000TEST1" "uk" (-2) None "recent" true Demo.start). lia.
Defined.

(** ** A missing badge *)


(** * Further properties *)

(** ** Text: trimming and case *)

Lemma rev_app_append (a b : string) : String.rev_app a b = String.rev a +:+ b.
Proof.
  revert b. induction a as [|x a IH]; intros b; [reflexivity|].
  unfold String.rev. simpl. rewrite (IH (String x b)), (IH (String x "")).
  by rewrite append_assoc.
Qed.

Lemma rev_cons (x : ascii) (a : string) :
  String.rev (String x a) = String.rev a +:+ String x "".
Proof. unfold String.rev at 1. simpl. apply rev_app_append. Qed.

Lemma rev_append (a b : string) :
  String.rev (a +:+ b) = String.rev b +:+ String.rev a.
Proof.
  induction a as [|x a IH].
  - by rewrite append_nil_l, append_nil_r.
  - by rewrite append_cons, !rev_cons, IH, append_assoc.
Qed.

Lemma lstrip_idem (s : string) : Text.lstrip (Text.lstrip s) = Text.lstrip s.
Proof.
  induction s as [|a s IH]; [reflexivity|]. simpl.
  destruct (Text.is_space a) eqn:E; [exact IH|]. simpl. by rewrite E.
Qed.

Lemma lstrip_append_nonspace (u v : string) (a : ascii) :
  Text.is_space a = false ->
  Text.lstrip (u +:+ String a v) = Text.lstrip u +:+ String a v.
Proof.
  intros Ha. induction u as [|x u IH].
  - rewrite !append_nil_l. simpl. by rewrite Ha.
  - rewrite append_cons. simpl. destruct (Text.is_space x); [exact IH|].
    by rewrite append_cons.
Qed.

Lemma rstrip_cons_nonspace (a : ascii) (s : string) :
  Text.is_space a = false -> Text.rstrip (String a s) = String a (Text.rstrip s).
Proof.
  intros Ha. unfold Text.rstrip.
  rewrite rev_cons, (lstrip_append_nonspace _ _ _ Ha), rev_append.
  reflexivity.
Qed.

Lemma rstrip_idem (s : string) : Text.rstrip (Text.rstrip s) = Text.rstrip s.
Proof. unfold Text.rstrip. by rewrite rev_involutive, lstrip_idem. Qed.

Lemma lstrip_rstrip_lstrip (s : string) :
  Text.lstrip (Text.rstrip (Text.lstrip s)) = Text.rstrip (Text.lstrip s).
Proof.
  induction s as [|a s IH]; [reflexivity|]. simpl.
  destruct (Text.is_space a) eqn:E; [exact IH|].
  rewrite (rstrip_cons_nonspace _ _ E). simpl. by rewrite E.
Qed.

(** Trimming twice is trimming once. *)
Lemma strip_idem (s : string) : Text.strip (Text.strip s) = Text.strip s.
Proof.
  unfold Text.strip. by rewrite lstrip_rstrip_lstrip, rstrip_idem.
Qed.

Lemma lower_char_idem (a : ascii) :
  Text.lower_char (Text.lower_char a) = Text.lower_char a.
Proof. destruct a as [[] [] [] [] [] [] [] []]; reflexivity. Qed.

Lemma lower_char_space (a : ascii) :
  Text.is_space (Text.lower_char a) = Text.is_space a.
Proof. destruct a as [[] [] [] [] [] [] [] []]; reflexivity. Qed.

Lemma lower_idem (s : string) : Text.lower (Text.lower s) = Text.lower s.
Proof.
  induction s as [|a s IH]; [reflexivity|]. simpl. by rewrite lower_char_idem, IH.
Qed.

Lemma lower_append (a b : string) :
  Text.lower (a +:+ b) = Text.lower a +:+ Text.lower b.
Proof.
  induction a as [|x a IH]; [reflexivity|].
  rewrite append_cons. simpl. by rewrite IH.
Qed.

Lemma lower_rev (s : string) : Text.lower (String.rev s) = String.rev (Text.lower s).
Proof.
  induction s as [|a s IH]; [reflexivity|].
  simpl. by rewrite !rev_cons, lower_append, IH.
Qed.

Lemma lower_lstrip (s : string) : Text.lower (Text.lstrip s) = Text.lstrip (Text.lower s).
Proof.
  induction s as [|a s IH]; [reflexivity|]. simpl.
  rewrite lower_char_space. by destruct (Text.is_space a).
Qed.

Lemma lower_strip (s : string) : Text.lower (Text.strip s) = Text.strip (Text.lower s).
Proof.
  unfold Text.strip, Text.rstrip.
  by rewrite lower_rev, lower_lstrip, lower_rev, lower_lstrip.
Qed.

(** Lowercasing and trimming an already lowercased and trimmed text changes
    nothing. *)
Lemma normal_form_fixed (s : string) :
  Text.strip (Text.lower (Text.strip (Text.lower s))) = Text.strip (Text.lower s).
Proof. by rewrite lower_strip, lower_idem, strip_idem. Qed.

(** ** The domain resolver, further *)



(** ** The URL builder, further *)

(** X2. The URL depends on the filter set only through [filterByStar],
    [filterByKeyword] and the truth value of [verifiedOnly]: any other key,
    [withMediaOnly] among them, changes nothing. *)
Theorem build_reviews_url_filters (cfg : DomainConfig) (asin domain_code : string)
    (page : Z) (sort_by : string) (filters filters' : Filters) :
  filters !! "filterByStar" = filters' !! "filterByStar" ->
  filters !! "filterByKeyword" = filters' !! "filterByKeyword" ->
  filter_set filters "verifiedOnly" = filter_set filters' "verifiedOnly" ->
  _build_reviews_url cfg asin domain_code page sort_by filters
  = _build_reviews_url cfg asin domain_code page sort_by filters'.
Proof.
  intros Hstar Hkeyword Hverified.
  unfold _build_reviews_url, review_params.
  rewrite Hverified. unfold filter_set. by rewrite Hstar, Hkeyword.
Qed.

Lemma build_reviews_url_filters_witness :
  _build_reviews_url (domain_cfg Demo.extractor) "B000TEST1" "uk" 2 "recent" Cases.no_filters
  = _build_reviews_url (domain_cfg Demo.extractor) "B000TEST1" "uk" 2 "recent" Cases.media_only.
Proof.
  apply (build_reviews_url_filters (domain_cfg Demo.extractor) "B000TEST1" "uk" 2 "recent"
           Cases.no_filters Cases.media_only); reflexivity.
Defined.

Lemma count_char_app (c : ascii) (a b : string) :
  count_char c (a +:+ b) = (count_char c a + count_char c b)%nat.
Proof.
  induction a as [|x a IH]; [reflexivity|].
  rewrite append_cons. simpl. rewrite IH. lia.
Qed.

Lemma quote_plus_cons (a : ascii) (s : string) :
  Url.quote_plus (String a s) = Url.quote_plus (String a "") +:+ Url.quote_plus s.
Proof. by rewrite <- quote_plus_app. Qed.

Lemma quote_plus_char_clean (a : ascii) :
  count_char "&" (Url.quote_plus (String a "")) = 0%nat
  /\ count_char "=" (Url.quote_plus (String a "")) = 0%nat.
Proof. destruct a as [[] [] [] [] [] [] [] []]; split; vm_compute; reflexivity. Qed.

(** An escaped text holds neither [&] nor [=]. *)
Lemma quote_plus_clean (s : string) :
  count_char "&" (Url.quote_plus s) = 0%nat /\ count_char "=" (Url.quote_plus s) = 0%nat.
Proof.
  induction s as [|a s [IH1 IH2]]; [by split|].
  rewrite quote_plus_cons, !count_char_app, IH1, IH2.
  destruct (quote_plus_char_clean a) as [-> ->]. by split.
Qed.

Lemma urlencode_counts (params : list (string * pyval)) :
  params <> [] ->
  (count_char "&" (Url.urlencode params) + 1)%nat = length params
  /\ count_char "=" (Url.urlencode params) = length params.
Proof.
  unfold Url.urlencode.
  set (f := fun kv : string * pyval =>
              Url.quote_plus kv.1 +:+ "=" +:+ Url.quote_plus (py_str kv.2)).
  assert (Hf : forall kv, count_char "&" (f kv) = 0%nat /\ count_char "=" (f kv) = 1%nat).
  { intros kv. unfold f. rewrite !count_char_app.
    destruct (quote_plus_clean kv.1) as [-> ->].
    destruct (quote_plus_clean (py_str kv.2)) as [-> ->]. by split. }
  induction params as [|kv params IH]; [done|]. intros _.
  destruct (Hf kv) as [Hamp Heq].
  destruct params as [|kv' params].
  - change (Text.join "&" (map f [kv])) with (f kv). rewrite Hamp, Heq. by split.
  - destruct IH as [IHamp IHeq]; [done|].
    change (map f (kv :: kv' :: params)) with (f kv :: f kv' :: map f params).
    change (map f (kv' :: params)) with (f kv' :: map f params) in IHamp, IHeq.
    rewrite join_cons2, !count_char_app, Hamp, Heq.
    change (count_char "&" "&") with 1%nat. change (count_char "=" "&") with 0%nat.
    simpl length in *. lia.
Qed.

Lemma review_params_length (page : Z) (sort_by : string) (filters : Filters) :
  (2 <= length (review_params page sort_by filters) <= 5)%nat.
Proof.
  unfold review_params. rewrite !length_app.
  repeat match goal with |- context [if ?b then _ else _] => destruct b end;
    simpl; lia.
Qed.

(** X3. The query of the URL holds one [=] per parameter and one [&]
    between two parameters, whatever the filter values are: a filter text
    cannot add or split a parameter. There are between two and five
    parameters. *)
Theorem build_reviews_url_query (cfg : DomainConfig) (asin domain_code : string)
    (page : Z) (sort_by : string) (filters : Filters) :
  exists path query,
    _build_reviews_url cfg asin domain_code page sort_by filters
    = path +:+ "?" +:+ query
    /\ query = Url.urlencode (review_params page sort_by filters)
    /\ (count_char "&" query + 1)%nat = length (review_params page sort_by filters)
    /\ count_char "=" query = length (review_params page sort_by filters)
    /\ (2 <= length (review_params page sort_by filters) <= 5)%nat.
Proof.
  eexists _, _. split; [|split; [reflexivity|]].
  - unfold _build_reviews_url. rewrite <- !append_assoc. reflexivity.
  - pose proof (review_params_length page sort_by filters) as Hlen.
    destruct (urlencode_counts (review_params page sort_by filters)) as [Hamp Heq].
    { intros Hnil. rewrite Hnil in Hlen. simpl in Hlen. lia. }
    done.
Qed.

Example build_reviews_url_keyword :
  _build_reviews_url (domain_cfg Demo.extractor) "B000TEST1" "de" 3 "helpful"
                     Cases.keyword_filters
  = "https://www.amazon.de/product-reviews/B000TEST1/ref=cm_cr_arp_d_paging_btm_next_3"
    +:+ "?pageNumber=3&sortBy=helpful&filterByKeyword=a%26b%3Dc+d"
    +:+ "&reviewerType=avp_only_reviews".
Proof. vm_compute. reflexivity. Qed.

(** X4. Filter values that count as false ([None], [False], 0, the empty
    text, or a missing key) are left out: with no filter set the query is
    the page number and the sort value and nothing else. *)
Theorem build_reviews_url_plain (cfg : DomainConfig) (asin domain_code : string)
    (page : Z) (sort_by : string) (filters : Filters) :
  filter_set filters "filterByStar" = false ->
  filter_set filters "filterByKeyword" = false ->
  filter_set filters "verifiedOnly" = false ->
  _build_reviews_url cfg asin domain_code page sort_by filters
  = ("https://www.amazon." +:+ get_domain cfg domain_code
     +:+ "/product-reviews/" +:+ asin)
    +:+ "/ref=cm_cr_arp_d_paging_btm_next_" +:+ Text.str_of_Z page
    +:+ "?pageNumber=" +:+ Text.str_of_Z page
    +:+ "&sortBy=" +:+ sort_value sort_by.
Proof.
  intros Hstar Hkeyword Hverified.
  unfold _build_reviews_url, Url.urlencode, review_params.
  rewrite Hstar, Hkeyword, Hverified. simpl map. rewrite quote_plus_str_of_Z.
  assert (Hq : Url.quote_plus (sort_value sort_by) = sort_value sort_by).
  { unfold sort_value. by destruct (bool_decide _). }
  simpl. rewrite Hq. reflexivity.
Qed.

Lemma build_reviews_url_plain_witness :
  _build_reviews_url (domain_cfg Demo.extractor) "B000TEST1" "uk" 2 "newest" Cases.no_filters
  = "https://www.amazon.co.uk/product-reviews/B000TEST1"
    +:+ "/ref=cm_cr_arp_d_paging_btm_next_2?pageNumber=2&sortBy=helpful".
Proof.
  apply (build_reviews_url_plain (domain_cfg Demo.extractor) "B000TEST1" "uk" 2 "newest"
           Cases.no_filters); reflexivity.
Defined.

(** ** The page fetcher, further *)

Section FetcherFurther.
Variable rt : Runtime.
Variable self : ReviewExtractor.

Local Abbreviation W := (world (random rt)).

(** The loop returns the body of the first attempt answered with status
    200, and stops there. *)
Lemma http_attempts_first (url : string) (attempts : list Z) :
  forall (last : option exn) (w : W) (k : nat) (body : string),
    (k < length attempts)%nat ->
    network rt (length (requests w) + k) (get_request self url) = Response 200 body ->
    (forall j b, (j < k)%nat ->
       network rt (length (requests w) + j) (get_request self url) <> Response 200 b) ->
    (http_attempts rt self url attempts last w).1 = Some body
    /\ requests (http_attempts rt self url attempts last w).2
       = requests w ++ replicate (S k) (get_request self url)
    /\ sleeps (http_attempts rt self url attempts last w).2
       = sleeps w ++ map backoff (take k attempts).
Proof.
  induction attempts as [|attempt rest IH]; intros last w k body Hk Hok Hbefore;
    [simpl in Hk; lia|].
  destruct k as [|k].
  - simpl. rewrite Nat.add_0_r in Hok. rewrite Hok. simpl. by rewrite app_nil_r.
  - assert (Hrest : forall (w' : W),
              requests w' = requests w ++ [get_request self url] ->
              (http_attempts rt self url rest last w').1 = Some body
              /\ requests (http_attempts rt self url rest last w').2
                 = requests w' ++ replicate (S k) (get_request self url)
              /\ sleeps (http_attempts rt self url rest last w').2
                 = sleeps w' ++ map backoff (take k rest)).
    { intros w' Hw'. apply IH.
      - simpl in Hk. lia.
      - rewrite Hw', length_app. simpl.
        by replace (length (requests w) + 1 + k)%nat
          with (length (requests w) + S k)%nat by lia.
      - intros j b Hj. rewrite Hw', length_app. simpl.
        replace (length (requests w) + 1 + j)%nat
          with (length (requests w) + S j)%nat by lia.
        apply Hbefore. lia. }
    assert (Hrest' : forall (last' : option exn) (w' : W),
              requests w' = requests w ++ [get_request self url] ->
              (http_attempts rt self url rest last' w').1 = Some body
              /\ requests (http_attempts rt self url rest last' w').2
                 = requests w' ++ replicate (S k) (get_request self url)
              /\ sleeps (http_attempts rt self url rest last' w').2
                 = sleeps w' ++ map backoff (take k rest)).
    { intros last' w' Hw'. apply IH.
      - simpl in Hk. lia.
      - rewrite Hw', length_app. simpl.
        by replace (length (requests w) + 1 + k)%nat
          with (length (requests w) + S k)%nat by lia.
      - intros j b Hj. rewrite Hw', length_app. simpl.
        replace (length (requests w) + 1 + j)%nat
          with (length (requests w) + S j)%nat by lia.
        apply Hbefore. lia. }
    clear Hrest. simpl.
    destruct (network rt (length (requests w)) (get_request self url))
      as [status b|e] eqn:Hnet.
    + destruct (status =? 200) eqn:Hst.
      * exfalso. apply Z.eqb_eq in Hst as ->.
        apply (Hbefore 0%nat b); [lia|]. by rewrite Nat.add_0_r.
      * match goal with
        | |- context [http_attempts rt self url rest ?l ?w'] =>
            destruct (Hrest' l w') as (Hsome & Hreq & Hsl); [done|]
        end.
        rewrite Hsome, Hreq, Hsl. simpl. by rewrite <- !app_assoc.
    + match goal with
      | |- context [http_attempts rt self url rest ?l ?w'] =>
          destruct (Hrest' l w') as (Hsome & Hreq & Hsl); [done|]
      end.
      rewrite Hsome, Hreq, Hsl. simpl. by rewrite <- !app_assoc.
Qed.

(** What the loop leaves alone, and how many requests it can send. *)
Lemma http_attempts_frame (url : string) (attempts : list Z) :
  forall (last : option exn) (w : W),
    clock_reads (http_attempts rt self url attempts last w).2 = clock_reads w
    /\ rng_state (http_attempts rt self url attempts last w).2 = rng_state w
    /\ exists j, (j <= length attempts)%nat
         /\ requests (http_attempts rt self url attempts last w).2
            = requests w ++ replicate j (get_request self url).
Proof.
  induction attempts as [|attempt rest IH]; intros last w; simpl.
  - split; [by destruct last|]. split; [by destruct last|].
    exists 0%nat. rewrite app_nil_r. split; [lia | by destruct last].
  - destruct (network rt (length (requests w)) (get_request self url))
      as [status b|e].
    + destruct (status =? 200).
      * simpl. split; [done|]. split; [done|]. exists 1%nat. split; [lia | done].
      * match goal with
        | |- context [http_attempts rt self url rest ?l ?w'] =>
            destruct (IH l w') as (Hclock & Hrng & j & Hj & Hreq)
        end.
        rewrite Hclock, Hrng, Hreq. simpl. split; [done|]. split; [done|].
        exists (S j). split; [lia|]. by rewrite <- app_assoc.
    + match goal with
      | |- context [http_attempts rt self url rest ?l ?w'] =>
          destruct (IH l w') as (Hclock & Hrng & j & Hj & Hreq)
      end.
      rewrite Hclock, Hrng, Hreq. simpl. split; [done|]. split; [done|].
      exists (S j). split; [lia|]. by rewrite <- app_assoc.
Qed.

(** The log of a run in which no attempt is answered with status 200: one
    warning per attempt, then one error entry if some attempt ended in a
    fault. *)
Lemma http_attempts_log (url : string) (attempts : list Z) :
  forall (last : option exn) (w : W),
    (forall k body, (k < length attempts)%nat ->
       network rt (length (requests w) + k) (get_request self url)
       <> Response 200 body) ->
    exists warnings,
      Forall is_warning warnings
      /\ length warnings = length attempts
      /\ logged (http_attempts rt self url attempts last w).2
         = logged w ++ warnings
           ++ match last_fault (network rt) (get_request self url)
                               (length (requests w)) (length attempts) last with
              | Some e =>
                  [LogError ("Failed to GET " +:+ url +:+ " after "
                             +:+ Text.str_of_Z (max_retries self) +:+ " attempts: "
                             +:+ exn_text e)]
              | None => []
              end.
Proof.
  induction attempts as [|attempt rest IH]; intros last w Hfail.
  - exists []. split; [constructor|]. split; [done|].
    destruct last; simpl; rewrite ?app_nil_r; reflexivity.
  - assert (Hrest : forall (w' : W),
              requests w' = requests w ++ [get_request self url] ->
              forall k body, (k < length rest)%nat ->
                network rt (length (requests w') + k) (get_request self url)
                <> Response 200 body).
    { intros w' Hw' k body Hk. rewrite Hw', length_app. simpl.
      replace (length (requests w) + 1 + k)%nat
        with (length (requests w) + S k)%nat by lia.
      apply Hfail. simpl. lia. }
    assert (Hnext : forall (w' : W),
              requests w' = requests w ++ [get_request self url] ->
              length (requests w') = S (length (requests w))).
    { intros w' ->. rewrite length_app. simpl. lia. }
    simpl.
    destruct (network rt (length (requests w)) (get_request self url))
      as [status b|e] eqn:Hnet.
    + destruct (status =? 200) eqn:Hst.
      * exfalso. apply Z.eqb_eq in Hst as ->.
        apply (Hfail 0%nat b); [simpl; lia|]. by rewrite Nat.add_0_r.
      * match goal with
        | |- context [http_attempts rt self url rest ?l ?w'] =>
            destruct (IH l w') as (warnings & Hall & Hlen & Hlog); [by apply Hrest|];
              rewrite (Hnext w' eq_refl) in Hlog
        end.
        eexists (_ :: warnings). split; [|split].
        3: { rewrite Hlog. simpl. rewrite <- app_assoc. reflexivity. }
        { by constructor. }
        { simpl. lia. }
    + match goal with
      | |- context [http_attempts rt self url rest ?l ?w'] =>
          destruct (IH l w') as (warnings & Hall & Hlen & Hlog); [by apply Hrest|];
            rewrite (Hnext w' eq_refl) in Hlog
      end.
      eexists (_ :: warnings). split; [|split].
      3: { rewrite Hlog. simpl. rewrite <- app_assoc. reflexivity. }
      { by constructor. }
      { simpl. lia. }
Qed.

Lemma last_fault_none (rq : request) (n : nat) :
  forall base,
    (forall k, (k < n)%nat -> exists status body,
       network rt (base + k) rq = Response status body) ->
    last_fault (network rt) rq base n None = None.
Proof.
  induction n as [|n IH]; intros base Hresp; [reflexivity|]. simpl.
  destruct (Hresp 0%nat) as (status & body & Hnet); [lia|].
  rewrite Nat.add_0_r in Hnet. rewrite Hnet. apply IH.
  intros k Hk. replace (S base + k)%nat with (base + S k)%nat by lia.
  apply Hresp. lia.
Qed.

End FetcherFurther.

(** X5. [_http_get] stops at the first attempt answered with status 200: it
    returns that body after exactly one request per attempt made, sends
    nothing afterwards, and has paused once after each earlier attempt. *)
Theorem http_get_first_success (rt : Runtime) (self : ReviewExtractor)
    (url : string) (w : world (random rt)) (k : nat) (body : string) :
  (k < Z.to_nat (max_retries self))%nat ->
  network rt (length (requests w) + k) (get_request self url) = Response 200 body ->
  (forall j b, (j < k)%nat ->
     network rt (length (requests w) + j) (get_request self url) <> Response 200 b) ->
  (_http_get rt self url w).1 = Some body
  /\ requests (_http_get rt self url w).2
     = requests w ++ replicate (S k) (get_request self url)
  /\ sleeps (_http_get rt self url w).2
     = sleeps w ++ map (fun attempt => (1 # 2) * inject_Z attempt)%Q
                       (range 1 (Z.of_nat k + 1)).
Proof.
  intros Hk Hok Hbefore. unfold _http_get.
  destruct (http_attempts_first rt self url (range 1 (max_retries self + 1)) None w k body)
    as (Hsome & Hreq & Hsl); [|done|done|].
  { rewrite length_range. lia. }
  split; [done|]. split; [done|]. rewrite Hsl, take_range by lia. reflexivity.
Qed.

Lemma http_get_first_success_witness :
  (_http_get (Demo.process 7 Demo.net_two_pages) Demo.extractor "https://x/" Demo.start).1
  = Some "<page 1>"
  /\ length (requests (_http_get (Demo.process 7 Demo.net_two_pages) Demo.extractor
                                "https://x/" Demo.start).2) = 3%nat.
Proof.
  destruct (http_get_first_success (Demo.process 7 Demo.net_two_pages) Demo.extractor
              "https://x/" Demo.start 2 "<page 1>") as (Hsome & Hreq & _).
  - vm_compute. lia.
  - reflexivity.
  - intros j b Hj. destruct j as [|[|j]]; [discriminate..|lia].
  - split; [exact Hsome|]. rewrite Hreq. reflexivity.
Defined.

(** X6. When no attempt is answered with status 200, [_http_get] logs one
    warning per attempt and then an error entry only if some attempt ended
    in a fault, naming the last such fault; when every attempt was answered
    with a status, the failure leaves warnings and no error entry. *)
Theorem http_get_terminal_log (rt : Runtime) (self : ReviewExtractor)
    (url : string) (w : world (random rt)) :
  (forall k body, (k < Z.to_nat (max_retries self))%nat ->
     network rt (length (requests w) + k) (get_request self url) <> Response 200 body) ->
  (exists warnings,
      Forall is_warning warnings
      /\ length warnings = Z.to_nat (max_retries self)
      /\ logged (_http_get rt self url w).2
         = logged w ++ warnings
           ++ match last_fault (network rt) (get_request self url)
                               (length (requests w)) (Z.to_nat (max_retries self)) None with
              | Some e =>
                  [LogError ("Failed to GET " +:+ url +:+ " after "
                             +:+ Text.str_of_Z (max_retries self) +:+ " attempts: "
                             +:+ exn_text e)]
              | None => []
              end)
  /\ ((forall k, (k < Z.to_nat (max_retries self))%nat ->
         exists status b,
           network rt (length (requests w) + k) (get_request self url) = Response status b) ->
      last_fault (network rt) (get_request self url)
                 (length (requests w)) (Z.to_nat (max_retries self)) None = None).
Proof.
  intros Hfail.
  assert (Hlen : length (range 1 (max_retries self + 1)) = Z.to_nat (max_retries self)).
  { rewrite length_range. f_equal. lia. }
  split; [|apply last_fault_none].
  unfold _http_get.
  destruct (http_attempts_log rt self url (range 1 (max_retries self + 1)) None w)
    as (warnings & Hall & Hwlen & Hlog).
  { intros k body Hk. apply Hfail. by rewrite <- Hlen. }
  exists warnings. rewrite Hlen in Hwlen, Hlog. done.
Qed.

Lemma http_get_terminal_log_witness :
  (exists warnings,
      Forall is_warning warnings
      /\ logged (_http_get (Demo.process 7 Cases.net_busy) Demo.extractor
                          "https://x/" Demo.start).2
         = warnings)
  /\ (exists warnings,
        Forall is_warning warnings
        /\ logged (_http_get (Demo.process 7 Demo.net_down) Demo.extractor
                            "https://x/" Demo.start).2
           = warnings
             ++ [LogError "Failed to GET https://x/ after 3 attempts: timed out"]).
Proof.
  split.
  - destruct (http_get_terminal_log (Demo.process 7 Cases.net_busy) Demo.extractor
                "https://x/" Demo.start) as [(warnings & Hall & _ & Hlog) Hnone].
    { intros k body _. discriminate. }
    exists warnings. split; [exact Hall|]. rewrite Hlog.
    rewrite Hnone; [by rewrite app_nil_r|]. intros k _. by eexists _, _.
  - destruct (http_get_terminal_log (Demo.process 7 Demo.net_down) Demo.extractor
                "https://x/" Demo.start) as [(warnings & Hall & _ & Hlog) _].
    { intros k body Hk. change (Z.to_nat (max_retries Demo.extractor)) with 3%nat in Hk.
      destruct k as [|[|[|k]]]; [discriminate..|lia]. }
    exists warnings. split; [exact Hall|]. rewrite Hlog. reflexivity.
Defined.

(** ** The record assembler, further *)

Lemma elem_of_range (a b x : Z) : x ∈ range a b <-> a <= x < b.
Proof.
  unfold range. rewrite list_elem_of_fmap. split.
  - intros (i & -> & Hi%elem_of_seq). lia.
  - intros Hx. exists (Z.to_nat (x - a)). split; [lia|]. apply elem_of_seq. lia.
Qed.

Lemma StronglySorted_range (a b : Z) : StronglySorted Z.lt (range a b).
Proof.
  unfold range. generalize (Z.to_nat (b - a)). intros n. revert a.
  induction n as [|n IH]; intros a; [constructor|].
  rewrite <- cons_seq. simpl. constructor.
  - rewrite <- fmap_S_seq, <- list_fmap_compose.
    pose proof (IH (a + 1)) as Hs.
    replace (map (fun i => a + 1 + Z.of_nat i) (seq 0 n))
      with ((fun i => a + Z.of_nat i) ∘ S <$> seq 0 n) in Hs; [exact Hs|].
    apply list_fmap_ext. intros _ i _. simpl. lia.
  - apply Forall_forall. intros x (i & -> & Hi%elem_of_seq)%list_elem_of_fmap. lia.
Qed.

Section LiveFurther.
Variable rt : Runtime.
Variable self : ReviewExtractor.
Variables asin domain_code sort_by : string.
Variable filters : Filters.

Local Abbreviation W := (world (random rt)).
Local Abbreviation loop := (fetch_pages rt self asin domain_code sort_by filters).

Lemma http_get_frame (url : string) (w : W) :
  clock_reads (_http_get rt self url w).2 = clock_reads w
  /\ (length (requests (_http_get rt self url w).2)
      <= length (requests w) + Z.to_nat (max_retries self))%nat.
Proof.
  unfold _http_get.
  destruct (http_attempts_frame rt self url (range 1 (max_retries self + 1)) None w)
    as (Hclock & _ & j & Hj & Hreq).
  split; [exact Hclock|]. rewrite Hreq, length_app, length_replicate.
  rewrite length_range in Hj. lia.
Qed.

(** The page loop never reads the clock, and sends at most [max_retries]
    requests per page number it is given. *)
Lemma fetch_pages_frame (pages : list Z) :
  forall pi si records (w : W),
    clock_reads (loop pages pi si records w).2 = clock_reads w
    /\ (length (requests (loop pages pi si records w).2)
        <= length (requests w) + length pages * Z.to_nat (max_retries self))%nat.
Proof.
  induction pages as [|page rest IH]; intros pi si records w; [simpl; lia|].
  simpl.
  match goal with
  | |- context [_http_get rt self ?url ?w0] =>
      destruct (http_get_frame url w0) as [Hclock Hreq];
        destruct (_http_get rt self url w0) as [html w1]
  end.
  simpl in Hclock, Hreq.
  destruct html as [[|a h]|]; simpl; [split; [done | lia]| |split; [done | lia]].
  destruct (match si with
            | Some _ => Ok si
            | None => _
            end) as [si'|e]; [|simpl; split; [done | lia]].
  destruct (_parse_reviews_from_soup _) as [revs|e]; [|simpl; split; [done | lia]].
  destruct (uniform _ _ _ _) as [pause g].
  match goal with
  | |- context [loop rest ?p ?s ?recs ?w2] =>
      destruct (IH p s recs w2) as [Hclock2 Hreq2]
  end.
  simpl in Hclock2, Hreq2. split; [congruence | lia].
Qed.

End LiveFurther.

(** X7. A live fetch sends at most [max_pages] times [max_retries]
    requests, and never asks the clock for the date ([datetime.utcnow] is
    not called). *)
Theorem live_request_budget (rt : Runtime) (self : ReviewExtractor)
    (asin domain_code : string) (max_pages : Z) (filters : option Filters)
    (sort_by : string) (w : world (random rt)) :
  (length (requests (fetch_reviews rt self asin domain_code max_pages filters
                                   sort_by false w).2)
   <= length (requests w) + Z.to_nat max_pages * Z.to_nat (max_retries self))%nat
  /\ clock_reads (fetch_reviews rt self asin domain_code max_pages filters
                                sort_by false w).2
     = clock_reads w.
Proof.
  unfold fetch_reviews.
  destruct (fetch_pages_frame rt self asin domain_code sort_by (default ∅ filters)
              (range 1 (max_pages + 1)) None None [] w) as [Hclock Hreq].
  rewrite length_range in Hreq.
  replace (Z.to_nat (max_pages + 1 - 1)) with (Z.to_nat max_pages) in Hreq by lia.
  split; [exact Hreq | exact Hclock].
Qed.

Example live_request_budget_demo :
  length (requests (fetch_reviews (Demo.process 7 Demo.net_two_pages) Demo.extractor
                                  "B000TEST1" "uk" 3 None "recent" false Demo.start).2)
  = 7%nat.
Proof. vm_compute. reflexivity. Qed.

(** X8. When the first page cannot be fetched, a live fetch returns no
    record and tries no later page: it has sent exactly [max_retries]
    requests, all for page 1, and paused only between them. *)
Theorem live_first_page_down (rt : Runtime) (self : ReviewExtractor)
    (asin domain_code : string) (max_pages : Z) (filters : option Filters)
    (sort_by : string) (w : world (random rt)) :
  0 < max_pages ->
  (forall k body,
      (k < Z.to_nat (max_retries self))%nat ->
      network rt (length (requests w) + k)
              (get_request self (_build_reviews_url (domain_cfg self) asin domain_code 1
                                                    sort_by (default ∅ filters)))
      <> Response 200 body) ->
  (fetch_reviews rt self asin domain_code max_pages filters sort_by false w).1 = Ok []
  /\ requests (fetch_reviews rt self asin domain_code max_pages filters sort_by false w).2
     = requests w
       ++ replicate (Z.to_nat (max_retries self))
            (get_request self (_build_reviews_url (domain_cfg self) asin domain_code 1
                                                  sort_by (default ∅ filters)))
  /\ sleeps (fetch_reviews rt self asin domain_code max_pages filters sort_by false w).2
     = sleeps w ++ map (fun attempt => (1 # 2) * inject_Z attempt)%Q
                       (range 1 (max_retries self + 1)).
Proof.
  intros Hpos Hfail. unfold fetch_reviews.
  rewrite (range_cons 1 (max_pages + 1)) by lia. simpl.
  match goal with
  | |- context [_http_get rt self ?url ?w0] =>
      destruct (http_attempts_none rt self url (range 1 (max_retries self + 1)) None w0)
        as (Hnone & Hreq & Hsl)
  end.
  { intros k body Hk. apply Hfail. rewrite length_range in Hk. lia. }
  unfold _http_get.
  destruct (http_attempts _ _ _ _ _ _) as [html w1]. simpl in Hnone, Hreq, Hsl.
  subst html. simpl. rewrite length_range in Hreq.
  replace (Z.to_nat (max_retries self + 1 - 1)) with (Z.to_nat (max_retries self))
    in Hreq by lia.
  done.
Qed.

Lemma live_first_page_down_witness :
  (fetch_reviews (Demo.process 7 Demo.net_down) Demo.extractor
                 "B000TEST1" "uk" 5 None "recent" false Demo.start).1 = Ok []
  /\ length (requests (fetch_reviews (Demo.process 7 Demo.net_down) Demo.extractor
                                    "B000TEST1" "uk" 5 None "recent" false Demo.start).2)
     = 3%nat.
Proof.
  destruct (live_first_page_down (Demo.process 7 Demo.net_down) Demo.extractor
              "B000TEST1" "uk" 5 None "recent" Demo.start) as (Hnone & Hreq & _).
  - lia.
  - intros k body Hk. change (Z.to_nat (max_retries Demo.extractor)) with 3%nat in Hk.
    destruct k as [|[|[|k]]]; [discriminate..|lia].
  - split; [exact Hnone|]. rewrite Hreq. reflexivity.
Defined.

Lemma parsed_page_entries (rt : Runtime) (pg : Z * list Review) (rv : Review) :
  parsed_page rt pg -> rv ∈ pg.2 -> exists rev, parse_review rev = Ok rv.
Proof.
  intros [body Hbody] Hrv. apply rmap_Forall2 in Hbody.
  apply list_elem_of_lookup in Hrv as [i Hi].
  destruct (Forall2_lookup_r _ _ _ _ _ Hbody Hi) as (rev & _ & Hrev). by exists rev.
Qed.

Lemma parse_review_variationId (rev : tag) (r : Review) :
  parse_review rev = Ok r -> rv_variationId r = None.
Proof.
  unfold parse_review. destruct (parse_helpful rev) as [h|e]; [|discriminate].
  simpl. by intros [= <-].
Qed.


(** The pages a live fetch parses are numbered from 1 without a gap. *)
Lemma fetch_reviews_live_pages (rt : Runtime) (self : ReviewExtractor)
    (asin domain_code : string) (max_pages : Z) (filters : option Filters)
    (sort_by : string) (w : world (random rt)) :
  exists records w' pages pi si k,
    fetch_reviews rt self asin domain_code max_pages filters sort_by false w
    = (Ok records, w')
    /\ records
       = flat_map (page_rows asin domain_code sort_by (default ∅ filters) pi si) pages
    /\ (k <= Z.to_nat max_pages)%nat
    /\ map fst pages = range 1 (Z.of_nat k + 1).
Proof.
  unfold fetch_reviews.
  destruct (Z_lt_le_dec 0 max_pages) as [Hpos|Hneg].
  - rewrite (range_cons 1 (max_pages + 1)) by lia.
    destruct (fetch_pages_first rt self asin domain_code sort_by (default ∅ filters)
                (range (1 + 1) (max_pages + 1)) [] w)
      as (pgs & w' & pi & si & Hrun & [n Hn] & _).
    rewrite <- (range_cons 1 (max_pages + 1)) in Hn by lia.
    exists (flat_map (page_rows asin domain_code sort_by (default ∅ filters) pi si) pgs),
      w', pgs, pi, si, (n `min` Z.to_nat max_pages)%nat.
    split; [exact Hrun|]. split; [done|]. split; [lia|].
    rewrite Hn. destruct (Nat.le_gt_cases n (Z.to_nat max_pages)) as [Hle|Hgt].
    + rewrite Nat.min_l by lia. by apply take_range.
    + rewrite Nat.min_r by lia. rewrite take_ge.
      * f_equal. lia.
      * rewrite length_range. lia.
  - rewrite range_nonpositive by lia. simpl.
    exists [], w, [], None, None, 0%nat. split_and!; try done. lia.
Qed.

Lemma page_rows_pages (asin dc sort_by : string) (fs : Filters)
    (pi : option ProductInfo) (si : option SummaryInfo) (pgs : list (Z * list Review)) :
  map currentPage (flat_map (page_rows asin dc sort_by fs pi si) pgs)
  = flat_map (fun pg => replicate (length pg.2) pg.1) pgs.
Proof.
  induction pgs as [|pg pgs IH]; [reflexivity|].
  simpl. rewrite map_app, IH. f_equal.
  unfold page_rows. generalize (Z.of_nat (length pg.2)). intros n.
  induction pg.2 as [|rv rvs IHr]; [reflexivity|]. simpl. by rewrite IHr.
Qed.

Lemma StronglySorted_blocks (pgs : list (Z * list Review)) :
  StronglySorted Z.lt (map fst pgs) ->
  StronglySorted Z.le (flat_map (fun pg => replicate (length pg.2) pg.1) pgs).
Proof.
  induction pgs as [|pg pgs IH]; [constructor|].
  simpl. intros [Hall Hrest]%StronglySorted_cons.
  apply StronglySorted_app_2; [| |by apply IH].
  - intros x1 x2 ->%elem_of_replicate_inv Hx2.
    apply list_elem_of_In, in_flat_map in Hx2 as (pg' & Hpg' & Hx2).
    apply list_elem_of_In in Hpg', Hx2. apply elem_of_replicate_inv in Hx2 as ->.
    rewrite Forall_forall in Hall. apply Z.lt_le_incl, Hall.
    by apply list_elem_of_fmap_2.
  - induction (length pg.2) as [|n IHn]; [constructor|].
    simpl. constructor; [exact IHn|]. apply Forall_replicate. lia.
Qed.


Example live_pages_in_order_demo :
  map currentPage Demo.live_records = [1; 1; 1; 2].
Proof. vm_compute. reflexivity. Qed.

(** ** The markup extractor, further *)

Lemma sub_non_digits_digits (s : string) : all_digits (Re.sub_non_digits s) = true.
Proof.
  induction s as [|a s IH]; [reflexivity|]. simpl.
  destruct (Text.is_digit a) eqn:E; [|exact IH]. simpl. by rewrite E, IH.
Qed.

Lemma sub_non_digits_some (s : string) :
  no_digit s = false -> Re.sub_non_digits s <> "".
Proof.
  induction s as [|a s IH]; [discriminate|]. simpl.
  destruct (Text.is_digit a); [discriminate | exact IH].
Qed.

Lemma digit_value_bounds (a : ascii) :
  Text.is_digit a = true -> 0 <= Text.digit_value a <= 9.
Proof. destruct a as [[] [] [] [] [] [] [] []]; vm_compute; intuition congruence. Qed.

Lemma digits_value_nonneg (s : string) :
  forall acc, 0 <= acc -> all_digits s = true -> 0 <= digits_value acc s.
Proof.
  induction s as [|a s IH]; intros acc Hacc; [done|]. simpl.
  intros [Ha Hs]%andb_true_iff. apply IH; [|exact Hs].
  pose proof (digit_value_bounds a Ha). lia.
Qed.



Lemma histogram_entry_star (soup : document) (star : string) :
  histogram_entry soup star = Ok (option_list (star_entry soup star)).
Proof.
  unfold histogram_entry, star_entry.
  destruct (select_one (sel_histogram star) soup) as [el|]; [|reflexivity]. simpl.
  destruct (Re.search_percent _) as [d|] eqn:Hd; [|reflexivity]. simpl.
  destruct (search_percent_some _ _ Hd) as [Hall Hne].
  by rewrite (py_int_digits d Hall Hne).
Qed.

Lemma rmap_histogram (soup : document) (stars : list string) :
  rmap (histogram_entry soup) stars
  = Ok (map (fun star => option_list (star_entry soup star)) stars).
Proof.
  induction stars as [|star stars IH]; [reflexivity|].
  simpl. by rewrite histogram_entry_star, IH.
Qed.

Lemma concat_option_list {A B} (f : A -> option B) (l : list A) :
  concat (map (fun a => option_list (f a)) l) = omap f l.
Proof.
  induction l as [|a l IH]; [reflexivity|].
  simpl. rewrite IH. by destruct (f a).
Qed.

Lemma summary_distribution_helper (soup : document) :
  exists si,
    _parse_summary_info soup = Ok si
    /\ si_summary si = or_None (omap (star_entry soup) star_levels).
Proof.
  eexists. unfold _parse_summary_info. rewrite rmap_histogram.
  cbv beta iota delta [rbind]. split; [reflexivity|].
  cbn [si_summary]. by rewrite concat_option_list.
Qed.


Example summary_distribution_demo :
  omap (star_entry Demo.page_one) star_levels = [("fiveStar", 71)].
Proof. vm_compute. reflexivity. Qed.

Lemma star_entry_nonneg (soup : document) (star : string) (kv : string * Z) :
  star_entry soup star = Some kv -> 0 <= kv.2.
Proof.
  unfold star_entry. destruct (select_one _ _) as [el|]; [|discriminate]. simpl.
  destruct (Re.search_percent _) as [d|] eqn:Hd; [|discriminate]. simpl.
  intros [= <-]. simpl. destruct (search_percent_some _ _ Hd) as [Hall _].
  by apply digits_value_nonneg.
Qed.

Lemma parse_helpful_nonneg (rev : tag) (h : option Z) :
  parse_helpful rev = Ok h -> from_option (fun n => 0 <= n) True h.
Proof.
  unfold parse_helpful. destruct (tag_select_one sel_helpful rev) as [el|];
    [|by intros [= <-]].
  destruct (Re.search_digits _) as [d|] eqn:Hd; [|by intros [= <-]].
  destruct (search_digits_some _ _ Hd) as [Hall Hne].
  rewrite (py_int_digits d Hall Hne). simpl. intros [= <-]. simpl.
  by apply digits_value_nonneg.
Qed.


Lemma sources_filter (tags : list tag) :
  sources tags = filter (fun s => s <> "") (src_values tags).
Proof.
  unfold sources, src_values. induction tags as [|t tags IH]; [reflexivity|].
  cbn [omap list_omap]. destruct (get t "src") as [[|a s]|].
  - by rewrite filter_cons_False by (by intros ?).
  - rewrite filter_cons_True by done. by rewrite IH.
  - exact IH.
Qed.


Example media_lists_demo :
  src_values (tag_select sel_image_tile (Demo.entry 0)) = ["https://img/1.jpg"].
Proof. vm_compute. reflexivity. Qed.

Lemma fmap_None_iff {A B} (f : A -> B) (o : option A) : f <$> o = None <-> o = None.
Proof. by destruct o. Qed.




(** ** The mock generator, further *)

Ltac mock_draws :=
  repeat match goal with
         | |- context [let '(_, _) := ?x in _] => destruct x
         end.

Lemma nth_default_member {A} (i : nat) (first : A) (others : list A) :
  nth i (first :: others) first ∈ first :: others.
Proof.
  destruct (Nat.lt_ge_cases i (length (first :: others))) as [Hlt|Hge].
  - apply list_elem_of_In, nth_In. exact Hlt.
  - rewrite nth_overflow by exact Hge. apply list_elem_of_here.
Qed.

Lemma choice_member {R : Random} {A} (first : A) (others : list A) (g : rng R) :
  (choice first others g).1 ∈ first :: others.
Proof.
  unfold choice. destruct (randbelow R _ g) as [i g']. simpl. apply nth_default_member.
Qed.

Section MockFurther.
Variable rt : Runtime.

Local Abbreviation W := (world (random rt)).

Lemma mock_record_turn asin dc sort_by fs pt pr summary total page size (w : W) :
  pt = "Mock Product for " +:+ asin ->
  mock_turn asin dc sort_by fs pr summary total page size
    (mock_record rt asin dc sort_by fs pt pr summary total page size w).1.
Proof.
  intros ->. unfold mock_record, choice. mock_draws.
  unfold mock_turn, echoes, page_fields. simpl. done.
Qed.

Lemma mock_record_choices asin dc sort_by fs pt pr summary total page size (w : W) :
  mock_choices (mock_record rt asin dc sort_by fs pt pr summary total page size w).1.
Proof.
  unfold mock_record.
  destruct (randint _ _ _ _) as [n g0].
  pose proof (choice_member (R := random rt) 5 [4; 3; 2; 1] g0) as Hstars.
  destruct (choice 5 _ g0) as [stars g1].
  pose proof (choice_member (R := random rt) "Alex"
                ["Jordan"; "Taylor"; "Sam"; "Casey"; "Riley"] g1) as Huser.
  destruct (choice "Alex" _ g1) as [user g2].
  destruct (randint _ _ _ _) as [helpful g3].
  pose proof (choice_member (R := random rt) "Color: Black"
                ["Size: Large"; "Style: Single"] g3) as Hvar.
  destruct (choice "Color: Black" _ g3) as [variation g4].
  destruct (choice true _ g4) as [is_verified g5].
  unfold mock_choices. simpl in *. split_and!; eauto.
Qed.

(** The effects of one turn: the clock is read once, nothing else of the
    run changes but the generator. *)
Lemma mock_record_effects asin dc sort_by fs pt pr summary total page size (w : W) :
  let w' := (mock_record rt asin dc sort_by fs pt pr summary total page size w).2 in
  requests w' = requests w /\ sleeps w' = sleeps w /\ logged w' = logged w
  /\ clock_reads w' = S (clock_reads w).
Proof. unfold mock_record, choice. mock_draws. simpl. done. Qed.

(** The inner loop appends [turns] records, each made by one turn. *)
Lemma mock_page_shape (make : W -> ReviewRecord * W) (turns : nat) :
  forall records w,
    exists made,
      (mock_page rt make turns records w).1 = records ++ made
      /\ length made = turns
      /\ Forall (fun r => exists w', r = (make w').1) made.
Proof.
  induction turns as [|turns IH]; intros records w.
  - exists []. simpl. by rewrite app_nil_r.
  - simpl. destruct (make w) as [rec w1] eqn:Hmake.
    destruct (IH (records ++ [rec]) w1) as (made & Hrun & Hlen & Hall).
    exists (rec :: made). rewrite Hrun, <- app_assoc. split; [done|].
    split; [simpl; lia|]. constructor; [|exact Hall]. exists w. by rewrite Hmake.
Qed.

Lemma mock_page_effects (make : W -> ReviewRecord * W) :
  (forall w, requests (make w).2 = requests w /\ sleeps (make w).2 = sleeps w
             /\ logged (make w).2 = logged w
             /\ clock_reads (make w).2 = S (clock_reads w)) ->
  forall turns records w,
    let w' := (mock_page rt make turns records w).2 in
    requests w' = requests w /\ sleeps w' = sleeps w /\ logged w' = logged w
    /\ clock_reads w' = (clock_reads w + turns)%nat.
Proof.
  intros Hmake. induction turns as [|turns IH]; intros records w; simpl.
  - split_and!; try done; lia.
  - destruct (Hmake w) as (Hr & Hs & Hl & Hc). destruct (make w) as [rec w1].
    simpl in *. destruct (IH (records ++ [rec]) w1) as (Hr' & Hs' & Hl' & Hc').
    simpl in *. split_and!; try congruence. lia.
Qed.

(** The outer loop appends one group per page number: its size is the draw
    made for the page, its records are made by turns for that page and that
    size; the clock is read once per record and nothing else of the run
    changes but the generator. *)
Lemma mock_pages_shape (make : Z -> Z -> W -> ReviewRecord * W) :
  (forall page size w,
      requests (make page size w).2 = requests w
      /\ sleeps (make page size w).2 = sleeps w
      /\ logged (make page size w).2 = logged w
      /\ clock_reads (make page size w).2 = S (clock_reads w)) ->
  forall pages records w,
    exists groups : list (Z * Z * list ReviewRecord),
      (mock_pages rt make pages records w).1 = records ++ flat_map snd groups
      /\ map (fun g => g.1.1) groups = pages
      /\ Forall (fun g => length g.2 = Z.to_nat g.1.2
                          /\ Forall (fun r => exists w', r = (make g.1.1 g.1.2 w').1) g.2
                          /\ exists g0, g.1.2 = (randint (random rt) 5 12 g0).1)
                groups
      /\ requests (mock_pages rt make pages records w).2 = requests w
      /\ sleeps (mock_pages rt make pages records w).2 = sleeps w
      /\ logged (mock_pages rt make pages records w).2 = logged w
      /\ clock_reads (mock_pages rt make pages records w).2
         = (clock_reads w + length (flat_map snd groups))%nat.
Proof.
  intros Hmake. induction pages as [|page rest IH]; intros records w.
  - exists []. simpl. rewrite app_nil_r. split_and!; try done; try lia.
  - simpl. destruct (randint (random rt) 5 12 (rng_state w)) as [size g] eqn:Hsize.
    destruct (mock_page_shape (make page size) (Z.to_nat size) records (set_rng g w))
      as (made & Hrun & Hlen & Hall).
    destruct (mock_page_effects (make page size) (Hmake page size)
                (Z.to_nat size) records (set_rng g w)) as (Hr & Hs & Hl & Hc).
    destruct (mock_page rt (make page size) (Z.to_nat size) records (set_rng g w))
      as [records1 w1]. simpl in Hrun, Hr, Hs, Hl, Hc. subst records1.
    destruct (IH (records ++ made) w1) as (groups & Hrun' & Hpages & Hgroups & Hr' & Hs' & Hl' & Hc').
    exists ((page, size, made) :: groups). rewrite Hrun'. simpl.
    rewrite <- app_assoc. split_and!; try congruence.
    + constructor; [|exact Hgroups]. simpl. split_and!; try done.
      exists (rng_state w). by rewrite Hsize.
    + rewrite Hc', Hc, length_app. lia.
Qed.

Lemma mock_record_ranges asin dc sort_by fs pt pr summary total page size (w : W) :
  randint_in_range (random rt) ->
  from_option (fun helpful => 0 <= helpful <= 25) False
    (numberOfHelpful (mock_record rt asin dc sort_by fs pt pr summary total page size w).1)
  /\ exists n, 10 ^ 12 <= n <= 10 ^ 13 - 1
       /\ reviewId (mock_record rt asin dc sort_by fs pt pr summary total page size w).1
          = Some ("R" +:+ Text.str_of_Z n).
Proof.
  intros Hrand. unfold mock_record.
  pose proof (Hrand (10 ^ 12) (10 ^ 13 - 1) (rng_state w)) as Hid.
  destruct (randint _ _ _ (rng_state w)) as [n g0]. simpl in Hid.
  destruct (choice 5 _ g0) as [stars g1].
  destruct (choice "Alex" _ g1) as [user g2].
  pose proof (Hrand 0 25 g2) as Hhelpful.
  destruct (randint _ 0 25 g2) as [helpful g3]. simpl in Hhelpful.
  destruct (choice "Color: Black" _ g3) as [variation g4].
  destruct (choice true _ g4) as [is_verified g5].
  simpl. split; [lia|]. exists n. split; [lia | reflexivity].
Qed.

(** A call of the mock generator: the product-level draws, then one group of
    records per page number from 1 to [max_pages]. *)
Lemma generate_mock_shape (asin dc : string) (max_pages : Z) (fs : Filters)
    (sort_by : string) (w : W) :
  exists (n : Z) (pr : string) (five four three two one : Z)
         (groups : list (Z * Z * list ReviewRecord)),
    (_generate_mock rt asin dc max_pages fs sort_by w).1 = flat_map snd groups
    /\ map (fun g => g.1.1) groups = range 1 (max_pages + 1)
    /\ Forall (fun g =>
                 length g.2 = Z.to_nat g.1.2
                 /\ Forall (fun r => exists w',
                               r = (mock_record rt asin dc sort_by fs
                                      ("Mock Product for " +:+ asin) pr
                                      (mock_summary five four three two one)
                                      (n * max_pages) g.1.1 g.1.2 w').1) g.2
                 /\ exists g0, g.1.2 = (randint (random rt) 5 12 g0).1)
              groups
    /\ (exists g0, n = (randint (random rt) 5 15 g0).1)
    /\ (exists g1 g2 g3 g4 g5,
          five = (randint (random rt) 50 90 g1).1
          /\ four = (randint (random rt) 5 30 g2).1
          /\ three = (randint (random rt) 1 15 g3).1
          /\ two = (randint (random rt) 0 5 g4).1
          /\ one = (randint (random rt) 0 5 g5).1)
    /\ requests (_generate_mock rt asin dc max_pages fs sort_by w).2 = requests w
    /\ sleeps (_generate_mock rt asin dc max_pages fs sort_by w).2 = sleeps w
    /\ logged (_generate_mock rt asin dc max_pages fs sort_by w).2 = logged w
    /\ clock_reads (_generate_mock rt asin dc max_pages fs sort_by w).2
       = (clock_reads w + length (flat_map snd groups))%nat.
Proof.
  unfold _generate_mock.
  destruct (randint _ 5 15 _) as [n g0] eqn:Hn.
  destruct (uniform _ _ _ g0) as [x g1].
  destruct (randint _ 50 90 g1) as [five g2] eqn:H5.
  destruct (randint _ 5 30 g2) as [four g3] eqn:H4.
  destruct (randint _ 1 15 g3) as [three g4] eqn:H3.
  destruct (randint _ 0 5 g4) as [two g5] eqn:H2.
  destruct (randint _ 0 5 g5) as [one g6] eqn:H1.
  match goal with
  | |- context [mock_pages rt ?make ?pages [] ?w0] =>
      destruct (mock_pages_shape make
                  (fun page size w' => mock_record_effects asin dc sort_by fs _ _ _ _ page size w')
                  pages [] w0)
        as (groups & Hrun & Hpages & Hgroups & Hr & Hs & Hl & Hc)
  end.
  exists n, (round1_text rt x +:+ " out of 5"), five, four, three, two, one, groups.
  simpl in Hrun. split; [exact Hrun|]. split; [exact Hpages|]. split; [exact Hgroups|].
  split; [eexists; by rewrite Hn|].
  split; [eexists _, _, _, _, _; by rewrite H5, H4, H3, H2, H1|].
  done.
Qed.

End MockFurther.

Lemma in_groups (groups : list (Z * Z * list ReviewRecord)) (r : ReviewRecord) :
  r ∈ flat_map snd groups <-> exists g, g ∈ groups /\ r ∈ g.2.
Proof.
  rewrite list_elem_of_In, in_flat_map. split.
  - intros (g & Hg & Hr). exists g. by rewrite !list_elem_of_In.
  - intros (g & Hg & Hr). exists g. by rewrite <- !list_elem_of_In.
Qed.

(** X18. All records of one mock call repeat the arguments of the call,
    carry status 200 and FOUND, share one product title (built from the
    asin), one rating count, one average rating and one distribution with
    the five star levels, and have null image and video lists. *)
Theorem mock_shared_fields (rt : Runtime) (call_asin call_domain : string)
    (max_pages : Z) (call_filters : Filters) (call_sort : string)
    (w : world (random rt)) :
  exists total product_rating summary,
    map fst summary = ["fiveStar"; "fourStar"; "threeStar"; "twoStar"; "oneStar"]
    /\ Forall (fun r => echoes call_asin call_domain call_sort call_filters r
                        /\ page_fields r
                           = (Some ("Mock Product for " +:+ call_asin), Some total,
                              Some product_rating, Some summary)
                        /\ imageUrlList r = None /\ videoUrlList r = None)
              (_generate_mock rt call_asin call_domain max_pages call_filters call_sort w).1.
Proof.
  destruct (generate_mock_shape rt call_asin call_domain max_pages call_filters call_sort w)
    as (n & pr & five & four & three & two & one & groups & Hrun & _ & Hgroups & _).
  exists (n * max_pages), pr, (mock_summary five four three two one).
  split; [reflexivity|]. rewrite Hrun. apply Forall_forall.
  intros r (g & Hg & Hr)%in_groups.
  rewrite Forall_forall in Hgroups. destruct (Hgroups g Hg) as (_ & Hmade & _).
  rewrite Forall_forall in Hmade. destruct (Hmade r Hr) as [w' ->].
  destruct (mock_record_turn rt call_asin call_domain call_sort call_filters _ pr
              (mock_summary five four three two one) (n * max_pages) g.1.1 g.1.2 w' eq_refl)
    as (Hecho & _ & _ & Hfields & Himg & Hvid).
  done.
Qed.

Lemma filter_groups_other (groups : list (Z * Z * list ReviewRecord)) (page : Z) :
  Forall (fun g => Forall (fun r => currentPage r = g.1.1) g.2) groups ->
  page ∉ map (fun g => g.1.1) groups ->
  filter (fun r => currentPage r = page) (flat_map snd groups) = [].
Proof.
  induction 1 as [|g groups Hg _ IH]; [done|].
  simpl. intros [Hne Hnotin]%not_elem_of_cons.
  rewrite filter_app, (IH Hnotin), app_nil_r.
  induction Hg as [|r rs Hr _ IHr]; [done|].
  rewrite filter_cons_False; [exact IHr | congruence].
Qed.

Lemma filter_group_same (rs : list ReviewRecord) (page : Z) :
  Forall (fun r => currentPage r = page) rs ->
  filter (fun r => currentPage r = page) rs = rs.
Proof.
  induction 1 as [|r rs Hr _ IH]; [done|].
  rewrite filter_cons_True by done. by rewrite IH.
Qed.

(** Records grouped by distinct page numbers, each carrying the size of its
    group, carry the number of records of their page. *)
Lemma count_in_groups (groups : list (Z * Z * list ReviewRecord)) :
  NoDup (map (fun g => g.1.1) groups) ->
  Forall (fun g => Forall (fun r => currentPage r = g.1.1
                                    /\ countReviews r = Z.of_nat (length g.2)) g.2)
         groups ->
  Forall (fun r => countReviews r = Z.of_nat (length (same_page (flat_map snd groups) r)))
         (flat_map snd groups).
Proof.
  unfold same_page. intros Hnodup Hgroups. apply Forall_forall. intros r.
  assert (Hpages : Forall (fun g => Forall (fun r => currentPage r = g.1.1) g.2) groups).
  { eapply Forall_impl; [exact Hgroups|]. intros g Hg.
    eapply Forall_impl; [exact Hg|]. by intros ? [? _]. }
  induction groups as [|g groups IH]; [by intros ?%elem_of_nil|].
  apply NoDup_cons in Hnodup as [Hnotin Hnodup].
  apply Forall_cons in Hgroups as [Hg Hgroups].
  apply Forall_cons in Hpages as [Hgp Hpages].
  simpl. rewrite filter_app, length_app. intros [Hr|Hr]%elem_of_app.
  - rewrite Forall_forall in Hg. destruct (Hg r Hr) as [Hp Hc].
    rewrite Hc. rewrite Hp.
    rewrite (filter_group_same g.2 g.1.1 Hgp).
    rewrite (filter_groups_other groups g.1.1 Hpages Hnotin). simpl. lia.
  - assert (Hother : currentPage r <> g.1.1).
    { intros Heq. apply Hnotin. rewrite <- Heq.
      apply in_groups in Hr as (g' & Hg' & Hr').
      rewrite Forall_forall in Hpages. pose proof (Hpages g' Hg') as Hall.
      rewrite Forall_forall in Hall. rewrite (Hall r Hr').
      by apply (list_elem_of_fmap_2 (fun g => g.1.1)). }
    assert (Hnil : filter (fun r' => currentPage r' = currentPage r) g.2 = []).
    { clear -Hgp Hother. induction Hgp as [|r' rs Hr' _ IHr]; [done|].
      rewrite filter_cons_False; [exact IHr | congruence]. }
    rewrite Hnil. simpl. by apply IH.
Qed.

Lemma StronglySorted_replicate_blocks (blocks : list (Z * nat)) :
  StronglySorted Z.lt (map fst blocks) ->
  StronglySorted Z.le (flat_map (fun b => replicate b.2 b.1) blocks).
Proof.
  induction blocks as [|b blocks IH]; [constructor|].
  simpl. intros [Hall Hrest]%StronglySorted_cons.
  apply StronglySorted_app_2; [| |by apply IH].
  - intros x1 x2 ->%elem_of_replicate_inv Hx2.
    apply list_elem_of_In, in_flat_map in Hx2 as (b' & Hb' & Hx2).
    apply list_elem_of_In in Hb', Hx2. apply elem_of_replicate_inv in Hx2 as ->.
    rewrite Forall_forall in Hall. apply Z.lt_le_incl, Hall.
    by apply list_elem_of_fmap_2.
  - induction b.2 as [|n IHn]; [constructor|].
    simpl. constructor; [exact IHn|]. apply Forall_replicate. lia.
Qed.

Lemma groups_pages (groups : list (Z * Z * list ReviewRecord)) :
  Forall (fun g => Forall (fun r => currentPage r = g.1.1) g.2) groups ->
  map currentPage (flat_map snd groups)
  = flat_map (fun b => replicate b.2 b.1) (map (fun g => (g.1.1, length g.2)) groups).
Proof.
  induction 1 as [|g groups Hg _ IH]; [reflexivity|].
  simpl. rewrite map_app, IH. f_equal.
  induction Hg as [|r rs Hr _ IHr]; [reflexivity|]. simpl. by rewrite Hr, IHr.
Qed.

(** X19. In a mock call every record's [countReviews] is the number of
    records of the call that carry its page number, so the counts of the
    pages add up to the number of records; the records come in page order. *)
Theorem mock_count_reviews (rt : Runtime) (asin domain_code : string)
    (max_pages : Z) (filters : Filters) (sort_by : string) (w : world (random rt)) :
  Forall (fun r => countReviews r
                   = Z.of_nat (length (same_page
                        (_generate_mock rt asin domain_code max_pages filters sort_by w).1 r)))
         (_generate_mock rt asin domain_code max_pages filters sort_by w).1
  /\ StronglySorted Z.le
       (map currentPage (_generate_mock rt asin domain_code max_pages filters sort_by w).1).
Proof.
  destruct (generate_mock_shape rt asin domain_code max_pages filters sort_by w)
    as (n & pr & five & four & three & two & one & groups & Hrun & Hpages & Hgroups & _).
  rewrite Hrun.
  assert (Hfields : Forall (fun g => Forall (fun r => currentPage r = g.1.1
                                              /\ countReviews r = Z.of_nat (length g.2)) g.2)
                           groups).
  { eapply Forall_impl; [exact Hgroups|]. intros g (Hlen & Hmade & _).
    apply Forall_forall. intros r Hr.
    rewrite Forall_forall in Hmade. destruct (Hmade r Hr) as [w' ->].
    destruct (mock_record_turn rt asin domain_code sort_by filters _ pr
                (mock_summary five four three two one) (n * max_pages) g.1.1 g.1.2 w' eq_refl)
      as (_ & Hpage & Hcount & _).
    split; [exact Hpage|]. rewrite Hcount.
    assert (length g.2 <> 0%nat) by (destruct g.2; [by apply elem_of_nil in Hr | done]).
    lia. }
  split.
  - apply count_in_groups; [|exact Hfields].
    rewrite Hpages. apply NoDup_range.
  - rewrite groups_pages.
    + apply StronglySorted_replicate_blocks. rewrite map_map. simpl.
      rewrite Hpages. apply StronglySorted_range.
    + eapply Forall_impl; [exact Hfields|]. intros g Hg.
      eapply Forall_impl; [exact Hg|]. by intros ? [? _].
Qed.

Example mock_count_reviews_demo :
  map (fun r => (currentPage r, countReviews r))
      (_generate_mock (Demo.process 7 Demo.net_down) "B000TEST1" "com" 2 ∅ "recent" Demo.start).1
  = replicate 8 (1, 8) ++ replicate 5 (2, 5).
Proof. vm_compute. reflexivity. Qed.

Lemma length_groups_bounds (groups : list (Z * Z * list ReviewRecord)) (lo hi : nat) :
  Forall (fun g => (lo <= length g.2 <= hi)%nat) groups ->
  (lo * length groups <= length (flat_map snd groups) <= hi * length groups)%nat.
Proof.
  induction 1 as [|g groups Hg _ IH]; [simpl; lia|].
  simpl. rewrite length_app. lia.
Qed.

Lemma lcg_randint : randint_in_range Demo.lcg.
Proof.
  intros a b g Hab. simpl.
  pose proof (Z.mod_pos_bound (Demo.step g) (b - a + 1)). lia.
Qed.



(** X21. Every mock record takes its rating and its title from one and the
    same number of stars among 1 to 5, its author from the six names, its
    single variation from the three variations, has [verified] set, and
    quotes its own review id and the asin in its text. *)
Theorem mock_choices_hold (rt : Runtime) (asin domain_code : string)
    (max_pages : Z) (filters : Filters) (sort_by : string) (w : world (random rt)) :
  Forall mock_choices (_generate_mock rt asin domain_code max_pages filters sort_by w).1.
Proof.
  apply generate_mock_Forall. intros. apply mock_record_choices.
Qed.

(** X22. A mock call sends no request, never pauses and logs nothing; it
    asks the clock for the date ([datetime.utcnow]) once for each record it
    returns. *)
Theorem mock_effects (rt : Runtime) (asin domain_code : string)
    (max_pages : Z) (filters : Filters) (sort_by : string) (w : world (random rt)) :
  requests (_generate_mock rt asin domain_code max_pages filters sort_by w).2 = requests w
  /\ sleeps (_generate_mock rt asin domain_code max_pages filters sort_by w).2 = sleeps w
  /\ logged (_generate_mock rt asin domain_code max_pages filters sort_by w).2 = logged w
  /\ clock_reads (_generate_mock rt asin domain_code max_pages filters sort_by w).2
     = (clock_reads w
        + length (_generate_mock rt asin domain_code max_pages filters sort_by w).1)%nat.
Proof.
  destruct (generate_mock_shape rt asin domain_code max_pages filters sort_by w)
    as (n & pr & five & four & three & two & one & groups & Hrun & _ & _ & _ & _
        & Hr & Hs & Hl & Hc).
  rewrite Hrun. done.
Qed.

(** ** Merging defaults and overrides *)

(** What a key holds after the merge. *)
Lemma merge_settings_lookup (settings overrides : option (gmap string jval)) (k : string) :
  merge_settings settings overrides !! k
  = match default ∅ overrides !! k with
    | Some v => if is_None v then default ∅ settings !! k else Some v
    | None => default ∅ settings !! k
    end.
Proof.
  unfold merge_settings. revert k.
  apply (map_fold_weak_ind
           (fun merged (m : gmap string jval) =>
              forall k, merged !! k
                        = match m !! k with
                          | Some v => if is_None v then default ∅ settings !! k else Some v
                          | None => default ∅ settings !! k
                          end)).
  - intros k. by rewrite lookup_empty.
  - intros i x m merged Hi IH k. destruct (decide (i = k)) as [->|Hne].
    + rewrite lookup_insert_eq. destruct (is_None x) eqn:Hx.
      * by rewrite IH, Hi.
      * by rewrite lookup_insert_eq.
    + rewrite (lookup_insert_ne m) by done. destruct (is_None x).
      * apply IH.
      * rewrite lookup_insert_ne by done. apply IH.
Qed.

(** X23. After [merge_settings], a key holds the override's value when the
    overrides have the key with a value other than [None], and otherwise
    what the settings hold for it (nothing if they lack it): an override of
    [None] never removes or replaces a default. *)
Theorem merge_settings_get (settings overrides : option (gmap string jval)) (k : string) :
  (forall v, default ∅ overrides !! k = Some v -> is_None v = false ->
     merge_settings settings overrides !! k = Some v)
  /\ (default ∅ overrides !! k = Some JNone ->
      merge_settings settings overrides !! k = default ∅ settings !! k)
  /\ (default ∅ overrides !! k = None ->
      merge_settings settings overrides !! k = default ∅ settings !! k).
Proof.
  rewrite merge_settings_lookup. split_and!.
  - by intros v -> ->.
  - by intros ->.
  - by intros ->.
Qed.

Lemma merge_settings_get_witness :
  merge_settings (Some Cases.defaults) (Some Cases.job) !! "maxPages" = Some (JInt 5)
  /\ merge_settings (Some Cases.defaults) (Some Cases.job) !! "sortBy"
     = Some (JStr "recent")
  /\ merge_settings (Some Cases.defaults) (Some Cases.job) !! "mock" = None.
Proof.
  split_and!.
  - destruct (merge_settings_get (Some Cases.defaults) (Some Cases.job) "maxPages")
      as (Hset & _ & _).
    apply Hset; reflexivity.
  - destruct (merge_settings_get (Some Cases.defaults) (Some Cases.job) "sortBy")
      as (_ & Hnone & _).
    rewrite Hnone; reflexivity.
  - destruct (merge_settings_get (Some Cases.defaults) (Some Cases.job) "mock")
      as (_ & _ & Hmissing).
    rewrite Hmissing; reflexivity.
Defined.

(** X24. Merging the same overrides a second time changes nothing; merging
    no overrides, or overrides that are all [None], gives the settings
    back; and of two merges in a row the later override wins on the keys
    where it is not [None]. *)
Theorem merge_settings_algebra (settings overrides later : option (gmap string jval)) :
  merge_settings (Some (merge_settings settings overrides)) overrides
  = merge_settings settings overrides
  /\ merge_settings settings None = default ∅ settings
  /\ (map_Forall (fun _ v => is_None v = true) (default ∅ overrides) ->
      merge_settings settings overrides = default ∅ settings)
  /\ (forall k v, default ∅ later !! k = Some v -> is_None v = false ->
        merge_settings (Some (merge_settings settings overrides)) later !! k = Some v).
Proof.
  split_and!.
  - apply map_eq. intros k. rewrite !merge_settings_lookup. simpl.
    rewrite merge_settings_lookup.
    destruct (default ∅ overrides !! k) as [v|]; [|done]. by destruct (is_None v).
  - apply map_eq. intros k. rewrite merge_settings_lookup. simpl.
    by rewrite lookup_empty.
  - intros Hall. apply map_eq. intros k. rewrite merge_settings_lookup.
    destruct (default ∅ overrides !! k) as [v|] eqn:Hk; [|done].
    by rewrite (Hall k v Hk).
  - intros k v Hk Hv. rewrite merge_settings_lookup. by rewrite Hk, Hv.
Qed.

Lemma merge_settings_algebra_witness :
  merge_settings (Some Cases.defaults) (Some {[ "sortBy" := JNone ]}) = Cases.defaults
  /\ merge_settings (Some (merge_settings (Some Cases.defaults) (Some {[ "maxPages" := JInt 3 ]})))
                    (Some Cases.job)
     !! "maxPages" = Some (JInt 5).
Proof.
  split.
  - destruct (merge_settings_algebra (Some Cases.defaults) (Some {[ "sortBy" := JNone ]}) None)
      as (_ & _ & Hnone & _).
    apply Hnone. intros k v Hk. simpl in Hk.
    apply lookup_singleton_Some in Hk as [_ <-]. reflexivity.
  - destruct (merge_settings_algebra (Some Cases.defaults) (Some {[ "maxPages" := JInt 3 ]})
                (Some Cases.job)) as (_ & _ & _ & Hlater).
    apply Hlater; reflexivity.
Defined.

(** ** The CSV exporter *)

Lemma union_of_keys_acc (rows : list row) (acc : gset string) (k : string) :
  k ∈ foldl (fun fieldnames r => fieldnames ∪ list_to_set (map fst r)) acc rows
  <-> k ∈ acc \/ exists r, r ∈ rows /\ k ∈ map fst r.
Proof.
  revert acc. induction rows as [|r rows IH]; intros acc; simpl.
  - split; [by left|]. intros [?|(r & Hr & _)]; [done|]. by apply elem_of_nil in Hr.
  - rewrite IH, elem_of_union, elem_of_list_to_set. split.
    + intros [[?|?]|(r' & Hr' & Hk)]; [by left| |].
      * right. exists r. split; [apply list_elem_of_here | done].
      * right. exists r'. split; [by apply list_elem_of_further | done].
    + intros [?|(r' & Hr' & Hk)]; [by left; left|].
      apply elem_of_cons in Hr' as [->|Hr']; [by left; right|].
      right. by exists r'.
Qed.

Lemma elem_of_union_of_keys (rows : list row) (k : string) :
  k ∈ union_of_keys rows <-> exists r, r ∈ rows /\ k ∈ map fst r.
Proof.
  unfold union_of_keys. rewrite union_of_keys_acc. split; [|by right].
  intros [?%elem_of_empty|?]; done.
Qed.

(** [sorted] lists the set without repetition, in ascending order. *)
Lemma sorted_spec (fieldnames : gset string) :
  Sorted String.le (sorted fieldnames)
  /\ NoDup (sorted fieldnames)
  /\ forall k, k ∈ sorted fieldnames <-> k ∈ fieldnames.
Proof.
  unfold sorted. split; [apply (Sorted_merge_sort _)|]. split.
  - rewrite merge_sort_Permutation. apply NoDup_elements.
  - intros k. rewrite merge_sort_Permutation. apply elem_of_elements.
Qed.

Lemma writerow_ok (fieldnames : list string) (r : row) :
  Forall (fun k => k ∈ fieldnames) (map fst r) ->
  writerow fieldnames r = Ok (csv_line fieldnames r).
Proof. intros H. unfold writerow. by rewrite bool_decide_eq_true_2. Qed.

Lemma rmap_writerow (fieldnames : list string) (rows : list row) :
  Forall (fun r => Forall (fun k => k ∈ fieldnames) (map fst r)) rows ->
  rmap (writerow fieldnames) rows = Ok (map (csv_line fieldnames) rows).
Proof.
  induction 1 as [|r rows Hr _ IH]; [reflexivity|].
  simpl. by rewrite (writerow_ok _ _ Hr), IH.
Qed.

(** X25. [export_csv] writes the empty file when there is no row. Otherwise
    it never raises, whatever keys the rows have: it writes a header made of
    every key of every row, without repetition and in ascending order, and
    then one line per row, in order, holding for each header name the row's
    value, or the empty text where the row lacks the key. *)
Theorem export_csv_table (rows : list row) (path : string) :
  exists lines message,
    export_csv_rows rows path = Ok (lines, message)
    /\ (lines = [] <-> rows = [])
    /\ (rows <> [] ->
        exists header,
          lines = map JStr header :: map (csv_line header) rows
          /\ Sorted String.le header
          /\ NoDup header
          /\ forall k, k ∈ header <-> exists r, r ∈ rows /\ k ∈ map fst r).
Proof.
  destruct rows as [|r rows].
  - eexists _, _. split; [reflexivity|]. split; [done|]. by intros ?.
  - set (all := r :: rows).
    destruct (sorted_spec (union_of_keys all)) as (Hsorted & Hnodup & Hmem).
    assert (Hkeys : Forall (fun r' => Forall (fun k => k ∈ sorted (union_of_keys all))
                                             (map fst r')) all).
    { apply Forall_forall. intros r' Hr'. apply Forall_forall. intros k Hk.
      apply Hmem, elem_of_union_of_keys. by exists r'. }
    exists (map JStr (sorted (union_of_keys all))
              :: map (csv_line (sorted (union_of_keys all))) all), ("Wrote CSV: " +:+ path).
    split.
    { unfold export_csv_rows. fold all. rewrite (rmap_writerow _ _ Hkeys). reflexivity. }
    split; [done|]. intros _. exists (sorted (union_of_keys all)).
    split; [reflexivity|]. split; [exact Hsorted|]. split; [exact Hnodup|].
    intros k. rewrite Hmem. apply elem_of_union_of_keys.
Qed.

Lemma export_csv_table_witness :
  exists lines message header,
    export_csv_rows [[("b", JInt 1); ("a", JNone)]; [("c", JStr "x")]] "out.csv"
    = Ok (lines, message)
    /\ lines = [[JStr "a"; JStr "b"; JStr "c"];
                [JNone; JInt 1; JStr ""];
                [JStr ""; JStr ""; JStr "x"]]
    /\ Sorted String.le header
    /\ lines = map JStr header
               :: map (csv_line header) [[("b", JInt 1); ("a", JNone)]; [("c", JStr "x")]].
Proof.
  destruct (export_csv_table [[("b", JInt 1); ("a", JNone)]; [("c", JStr "x")]] "out.csv")
    as (lines & message & Hrun & _ & Htable).
  destruct Htable as (header & Hlines & Hsorted & _); [discriminate|].
  exists lines, message, header. split; [exact Hrun|].
  split; [|split; [exact Hsorted | exact Hlines]].
  vm_compute in Hrun. by injection Hrun as <- _.
Defined.

Lemma asdict_keys (r : ReviewRecord) : map fst (asdict r) = field_names.
Proof. reflexivity. Qed.

Lemma sorted_field_names_sort : sorted_field_names = merge_sort String.le field_names.
Proof. vm_compute. reflexivity. Qed.

(** The header of a table of records. *)
Lemma records_header (records : list ReviewRecord) :
  records <> [] ->
  sorted (union_of_keys (records_to_dicts records)) = sorted_field_names.
Proof.
  intros Hne.
  destruct (sorted_spec (union_of_keys (records_to_dicts records)))
    as (Hsorted & Hnodup & Hmem).
  apply (Sorted_unique String.le); [exact Hsorted| |].
  - rewrite sorted_field_names_sort. apply (Sorted_merge_sort _).
  - apply NoDup_Permutation; [exact Hnodup| |].
    + apply (bool_decide_unpack _). vm_compute. reflexivity.
    + intros k. rewrite Hmem, elem_of_union_of_keys.
      rewrite sorted_field_names_sort, merge_sort_Permutation. split.
      * intros (r & (rec & -> & _)%list_elem_of_fmap & Hk). by rewrite asdict_keys in Hk.
      * intros Hk. destruct records as [|rec records]; [done|].
        exists (asdict rec). split; [apply list_elem_of_here | by rewrite asdict_keys].
Qed.

Lemma csv_line_complete (r : ReviewRecord) :
  Forall2 (fun key cell => dict_get key (asdict r) = Some cell)
          sorted_field_names (csv_line sorted_field_names (asdict r)).
Proof. repeat constructor. Qed.

(** X26. For records, [export_csv] writes the empty file exactly when there
    is no record; otherwise a header with the 25 field names in ascending
    order and one line of 25 cells per record, in order, each cell being
    the record's own value for the field of its column (the filler for a
    missing key is never used). *)
Theorem export_csv_records (records : list ReviewRecord) (path : string) :
  exists lines message,
    export_csv records path = Ok (lines, message)
    /\ (lines = [] <-> records = [])
    /\ (records <> [] ->
        lines = map JStr sorted_field_names
                :: map (fun r => csv_line sorted_field_names (asdict r)) records)
    /\ Forall (fun line => length line = 25%nat) lines
    /\ Forall (fun r => Forall2 (fun key cell => dict_get key (asdict r) = Some cell)
                                sorted_field_names
                                (csv_line sorted_field_names (asdict r)))
              records.
Proof.
  assert (Hcomplete : Forall (fun r => Forall2 (fun key cell => dict_get key (asdict r) = Some cell)
                                sorted_field_names
                                (csv_line sorted_field_names (asdict r))) records).
  { apply Forall_forall. intros r _. apply csv_line_complete. }
  destruct records as [|rec records].
  - eexists _, _. split; [reflexivity|]. split; [done|]. split; [done|].
    split; [constructor | exact Hcomplete].
  - set (all := rec :: records) in *.
    assert (Hne : all <> []) by done.
    assert (Hkeys : Forall (fun r' => Forall (fun k => k ∈ sorted_field_names) (map fst r'))
                           (records_to_dicts all)).
    { apply Forall_forall. intros r' (r & -> & _)%list_elem_of_fmap.
      rewrite asdict_keys. apply (bool_decide_unpack _). vm_compute. reflexivity. }
    exists (map JStr sorted_field_names
              :: map (fun r => csv_line sorted_field_names (asdict r)) all),
      ("Wrote CSV: " +:+ path).
    split.
    { unfold export_csv, export_csv_rows.
      change (records_to_dicts all) with (asdict rec :: records_to_dicts records) at 1.
      cbv beta iota.
      change (asdict rec :: records_to_dicts records) with (records_to_dicts all).
      rewrite (records_header all Hne), (rmap_writerow _ _ Hkeys).
      unfold records_to_dicts. by rewrite map_map. }
    split; [done|]. split; [done|]. split; [|exact Hcomplete].
    constructor; [reflexivity|]. apply Forall_forall.
    intros line (r & -> & _)%list_elem_of_fmap. reflexivity.
Qed.

Example export_csv_records_demo :
  exists lines message,
    export_csv Demo.live_records "out.csv" = Ok (lines, message)
    /\ length lines = 5%nat
    /\ head lines = Some (map JStr sorted_field_names).
Proof. eexists _, _. split; [vm_compute; reflexivity|]. split; reflexivity. Qed.

(** ** What a live fetch sends and what its records depend on *)

Section LiveRequests.
Variable rt : Runtime.
Variable self : ReviewExtractor.
Variables asin domain_code sort_by : string.
Variable filters : Filters.

Local Abbreviation W := (world (random rt)).
Local Abbreviation loop := (fetch_pages rt self asin domain_code sort_by filters).
Local Abbreviation page_url :=
  (fun page => _build_reviews_url (domain_cfg self) asin domain_code page sort_by filters).

(** Every request of the page loop is the request for one of its pages. *)
Lemma fetch_pages_requests (pages : list Z) :
  forall pi si records (w : W),
    exists new,
      requests (loop pages pi si records w).2 = requests w ++ new
      /\ Forall (fun rq => exists page, page ∈ pages /\ rq = get_request self (page_url page))
                new.
Proof.
  induction pages as [|page rest IH]; intros pi si records w.
  - exists []. simpl. by rewrite app_nil_r.
  - assert (Hnext : forall new' (w1 w' : W) j,
              requests w1 = requests w ++ replicate j (get_request self (page_url page)) ->
              requests w' = requests w1 ++ new' ->
              Forall (fun rq => exists p, p ∈ rest /\ rq = get_request self (page_url p)) new' ->
              exists new,
                requests w' = requests w ++ new
                /\ Forall (fun rq => exists p, p ∈ page :: rest
                                               /\ rq = get_request self (page_url p)) new).
    { intros new' w1 w' j Hw1 Hw' Hall.
      exists (replicate j (get_request self (page_url page)) ++ new').
      rewrite Hw', Hw1, <- app_assoc. split; [done|]. apply Forall_app. split.
      - apply Forall_replicate. exists page. split; [apply list_elem_of_here | done].
      - eapply Forall_impl; [exact Hall|]. intros rq (p & Hp & ->).
        exists p. split; [by apply list_elem_of_further | done]. }
    simpl.
    match goal with
    | |- context [_http_get rt self ?url ?w0] =>
        destruct (http_attempts_frame rt self url (range 1 (max_retries self + 1)) None w0)
          as (_ & _ & j & _ & Hreq);
          fold (_http_get rt self url w0) in Hreq;
          destruct (_http_get rt self url w0) as [html w1]
    end.
    simpl in Hreq.
    destruct html as [[|a h]|]; simpl;
      [by apply (Hnext [] w1 _ j); [|rewrite app_nil_r|constructor]
      | |by apply (Hnext [] w1 _ j); [|rewrite app_nil_r|constructor]].
    destruct (match si with
              | Some _ => Ok si
              | None => _
              end) as [si'|e];
      [|simpl; by apply (Hnext [] w1 _ j); [|rewrite app_nil_r|constructor]].
    destruct (_parse_reviews_from_soup _) as [revs|e];
      [|simpl; by apply (Hnext [] w1 _ j); [|rewrite app_nil_r|constructor]].
    destruct (uniform _ _ _ _) as [pause g].
    match goal with
    | |- context [loop rest ?p ?s ?recs ?w2] =>
        destruct (IH p s recs w2) as (new' & Hreq' & Hall)
    end.
    by apply (Hnext new' w1 _ j).
Qed.

(** The body [_http_get] returns and the number of requests it leaves
    behind depend on the run only through the number of requests sent
    before. *)
Lemma http_attempts_agree (url : string) (attempts : list Z) :
  forall last1 last2 (w1 w2 : W),
    length (requests w1) = length (requests w2) ->
    (http_attempts rt self url attempts last1 w1).1
    = (http_attempts rt self url attempts last2 w2).1
    /\ length (requests (http_attempts rt self url attempts last1 w1).2)
       = length (requests (http_attempts rt self url attempts last2 w2).2).
Proof.
  induction attempts as [|attempt rest IH]; intros last1 last2 w1 w2 Hlen.
  - simpl. split; [done|]. by destruct last1, last2.
  - simpl. rewrite Hlen.
    destruct (network rt (length (requests w2)) (get_request self url)) as [status b|e].
    + destruct (status =? 200).
      * simpl. split; [done|]. rewrite !length_app. simpl. lia.
      * apply IH. simpl. rewrite !length_app. simpl. lia.
    + apply IH. simpl. rewrite !length_app. simpl. lia.
Qed.

Lemma fetch_pages_agree (pages : list Z) :
  forall pi si records (w1 w2 : W),
    length (requests w1) = length (requests w2) ->
    (loop pages pi si records w1).1 = (loop pages pi si records w2).1.
Proof.
  induction pages as [|page rest IH]; intros pi si records w1 w2 Hlen; [done|].
  simpl.
  match goal with
  | |- context [_http_get rt self ?url (log ?entry w1)] =>
      destruct (http_attempts_agree url (range 1 (max_retries self + 1)) None None
                  (log entry w1) (log entry w2) Hlen) as [Hbody Hlen'];
        fold (_http_get rt self url (log entry w1)) in Hbody, Hlen';
        fold (_http_get rt self url (log entry w2)) in Hbody, Hlen';
        destruct (_http_get rt self url (log entry w1)) as [html1 w1'];
        destruct (_http_get rt self url (log entry w2)) as [html2 w2']
  end.
  simpl in Hbody, Hlen'. subst html2.
  destruct html1 as [[|a h]|]; simpl; [done| |done].
  destruct (match si with
            | Some _ => Ok si
            | None => _
            end) as [si'|e]; [|done].
  destruct (_parse_reviews_from_soup _) as [revs|e]; [|done].
  destruct (uniform _ _ _ (rng_state w1')) as [pause1 g1].
  destruct (uniform _ _ _ (rng_state w2')) as [pause2 g2].
  apply IH. exact Hlen'.
Qed.

End LiveRequests.


(** X28. The records of a live fetch depend on the state of the run only
    through the number of requests sent before it: the state of the
    generator that draws the pauses, the clock, the pauses made and the log
    do not reach them. *)
Theorem live_records_independent (rt : Runtime) (self : ReviewExtractor)
    (asin domain_code : string) (max_pages : Z) (filters : option Filters)
    (sort_by : string) (w1 w2 : world (random rt)) :
  length (requests w1) = length (requests w2) ->
  (fetch_reviews rt self asin domain_code max_pages filters sort_by false w1).1
  = (fetch_reviews rt self asin domain_code max_pages filters sort_by false w2).1.
Proof. intros Hlen. unfold fetch_reviews. by apply fetch_pages_agree. Qed.

Lemma live_records_independent_witness :
  (fetch_reviews (Demo.process 7 Demo.net_two_pages) Demo.extractor
                 "B000TEST1" "uk" 3 None "recent" false Demo.start).1
  = (fetch_reviews (Demo.process 7 Demo.net_two_pages) Demo.extractor
                   "B000TEST1" "uk" 3 None "recent" false
                   (sleep (3 # 1) (clock_read (set_rng (41 : rng Demo.lcg) Demo.start)))).1.
Proof.
  apply (live_records_independent (Demo.process 7 Demo.net_two_pages) Demo.extractor
           "B000TEST1" "uk" 3 None "recent" Demo.start
           (sleep (3 # 1) (clock_read (set_rng (41 : rng Demo.lcg) Demo.start)))).
  reflexivity.
Defined.
